(** * Sampled-LP polynomial solver (polynomial.ipynb)

    A shallow embedding of the notebook's first code cell: the module-level
    seeding of NumPy's global generator, [pol_calc] and [solve_degree_n].

    Conventions.
    - A Python [int] is a [Z]; a NumPy [float64] array is a [list Q].  The
      sample points themselves are exact in this model: a draw is
      [-1 + 2 * d] with [d] a 53-bit dyadic fraction, which float64
      represents without rounding.  The powers [x**i] and everything the LP
      solver computes are idealised to exact rational arithmetic.
    - CVXPY builds expression trees; they are modelled as the inductive type
      [Expression], with the shape checks CVXPY performs when a tree is
      built, and a denotation [eval] at a value of the unknown vector.
    - [solve_degree_n] checks none of its arguments itself; what a degree
      below 0 or an empty sample does is decided by the libraries.  CVXPY's
      releases differ on one point that matters here, whether a dimension
      of 0 is a valid shape, and the notebook pins no release: that choice
      is the parameter [Cvxpy] of the model.
    - Exceptions are the [Raise] branch of [result]; the global generator
      and standard output are threaded through the state monad [M].
    - NumPy's generator and the GLPK solver sit behind the interfaces
      [BitGenerator] and [LPSolver]; [MT19937] is the generator NumPy's
      legacy [np.random] uses. *)

From Stdlib Require Import String ZArith QArith Qpower List Bool Lia Lqa.
From Stdlib Require Import DecimalString.
Import ListNotations.

(* ================================================================= *)
(** ** Python values, exceptions *)

(** A float that is finite or one of the two infinities ([problem.value]
    is [inf] for an unbounded and [-inf] for an infeasible maximisation). *)
Inductive pyfloat : Type :=
| Finite (q : Q)
| PosInf
| NegInf.

(** The numbers a caller may pass as [n_sample]. *)
Inductive pynumber : Type :=
| PInt (z : Z)
| PFloat (f : pyfloat).

(** Objects that [solve_degree_n] returns or prints. *)
#[warnings="-register-all"]
Inductive pyobj : Type :=
| PyNone
| PyStr (s : string)
| PyFloat (f : pyfloat)
| PyArray (a : list Q)
| PyTuple (items : list pyobj).

Inductive exn : Type :=
| ValueError
| TypeError
| IndexError
| SolverError.

Inductive result (A : Type) : Type :=
| Ok (a : A)
| Raise (e : exn).

Arguments Ok {A} a.
Arguments Raise {A} e.

Definition rbind {A B : Type} (r : result A) (k : A -> result B) : result B :=
  match r with
  | Ok a => k a
  | Raise e => Raise e
  end.

Declare Scope result_scope.
Delimit Scope result_scope with result.
Notation "'try' x <- r ;; k" := (rbind r (fun x => k))
  (at level 100, x name, r at next level, k at level 200,
   right associativity) : result_scope.

(* ================================================================= *)
(** ** NumPy arrays *)

Definition ndarray : Type := list Q.

(** [x ** i] for an array [x] and a Python int [i >= 0]. *)
Definition power (x : ndarray) (i : nat) : ndarray :=
  map (fun v => v ^ Z.of_nat i)%Q x.

(** [range(k)] *)
Definition range (k : nat) : list nat := seq 0 k.

(* ================================================================= *)
(** ** CVXPY expressions *)

(** A constant is 0-d (a Python number) or 1-d (an ndarray). *)
Inductive ndvalue : Type :=
| Scalar (q : Q)
| Array (a : ndarray).

Inductive Shape : Type :=
| Sc
| Vec (len : nat).

Inductive Expression : Type :=
| Var (size : nat)                       (* cp.Variable(size) *)
| Constant (v : ndvalue)
| index (e : Expression) (i : nat)       (* e[i] *)
| multiply (a b : Expression)            (* a * b, one side a scalar *)
| AddExpression (a b : Expression).      (* a + b *)

Definition promote (s t : Shape) : Shape :=
  match s with
  | Sc => t
  | Vec _ => s
  end.

Fixpoint shape (e : Expression) : Shape :=
  match e with
  | Var n => Vec n
  | Constant (Scalar _) => Sc
  | Constant (Array a) => Vec (length a)
  | index _ _ => Sc
  | multiply a b => promote (shape a) (shape b)
  | AddExpression a b => promote (shape a) (shape b)
  end.

(** [e.size]: the number of entries. *)
Definition size (e : Expression) : nat :=
  match shape e with
  | Sc => 1
  | Vec n => n
  end.

Definition Shape_eqb (s t : Shape) : bool :=
  match s, t with
  | Sc, Sc => true
  | Vec n, Vec m => Nat.eqb n m
  | _, _ => false
  end.

Definition is_scalar (s : Shape) : bool :=
  match s with
  | Sc => true
  | Vec _ => false
  end.

(** The leaves of a tree (variables, and the constants that operands are
    promoted to) check their shape when they are built.  Every release of
    CVXPY refuses a negative dimension ("Invalid dimensions"); a dimension
    of 0 is refused by the earlier releases and accepted by the later
    ones. *)
Class Cvxpy : Type := {
  accepts_zero_dim : bool
}.

Definition valid_dim {cvx : Cvxpy} (d : Z) : bool :=
  if accepts_zero_dim then (0 <=? d)%Z else (0 <? d)%Z.

(** [cp.Variable(d)] for a Python int [d]: a leaf of shape [(d,)]. *)
Definition cp_Variable {cvx : Cvxpy} (d : Z) : result Expression :=
  if valid_dim d then Ok (Var (Z.to_nat d)) else Raise ValueError.

(** Promotion of an ndarray operand to a constant leaf: the same dimension
    check applies, to the length of the array. *)
Definition cast_to_const {cvx : Cvxpy} (a : ndarray) : result Expression :=
  if valid_dim (Z.of_nat (length a))
  then Ok (Constant (Array a))
  else Raise ValueError.

(** [e[i]] for a Python int [i]: negative keys wrap once, and a key outside
    the axis raises IndexError, as does any integer key on a scalar. *)
Definition getitem (e : Expression) (i : Z) : result Expression :=
  match shape e with
  | Sc => Raise IndexError
  | Vec n =>
      let k := if (i <? 0)%Z then (i + Z.of_nat n)%Z else i in
      if ((0 <=? k) && (k <? Z.of_nat n))%Z
      then Ok (index e (Z.to_nat k))
      else Raise IndexError
  end.

(** [a + b] on expressions: shapes must agree unless one side is a scalar. *)
Definition add (a b : Expression) : result Expression :=
  if is_scalar (shape a) || is_scalar (shape b) || Shape_eqb (shape a) (shape b)
  then Ok (AddExpression a b)
  else Raise ValueError.

(** [e * a] for an expression [e] and an ndarray [a], with [e] or [a] a
    scalar-shaped operand (the only product [pol_calc] forms is a scalar
    entry of the unknown times an array).  A product of two 1-d operands is
    CVXPY's matrix product, which this model leaves out: it is reported as
    an error and never reached from [solve_degree_n]. *)
Definition mul {cvx : Cvxpy} (e : Expression) (a : ndarray) : result Expression :=
  (try k <- cast_to_const a ;;
   if is_scalar (shape e) then Ok (multiply e k) else Raise ValueError)%result.

(** The builtin [sum] over a generator: the accumulator starts as the
    Python int 0 and the terms are produced and added one at a time.  A
    Python number and the constant CVXPY promotes it to are the same tree
    here, [Constant (Scalar q)]; over no terms [sum] returns its start
    value, the int 0 itself. *)
Fixpoint sum_from (acc : Expression) (terms : list (result Expression))
  : result Expression :=
  match terms with
  | [] => Ok acc
  | t :: rest =>
      (try e <- t ;;
       try acc' <- add acc e ;;
       sum_from acc' rest)%result
  end.

Definition py_sum (terms : list (result Expression)) : result Expression :=
  sum_from (Constant (Scalar 0)) terms.

(** Iterating an expression goes through [__getitem__] with keys 0, 1, ...
    until IndexError; for a 1-d expression these are its entries, and a
    scalar yields nothing. *)
Definition iterate (e : Expression) : list Expression :=
  match shape e with
  | Sc => []
  | Vec n => map (index e) (range n)
  end.

(** [for px_i in o] on what [sum] returned: an expression is iterated as
    above; the int 0 that [sum] returns over no terms is not iterable
    ("'int' object is not iterable"). *)
Definition py_iter (o : Expression) : result (list Expression) :=
  match o with
  | Constant (Scalar _) => Raise TypeError
  | _ => Ok (iterate o)
  end.

(** Constraints: [Inequality l r] stands for [l <= r].  [e >= b] is built
    as [b <= e]. *)
Inductive Constraint : Type :=
| Inequality (lhs rhs : Expression).

Definition ge (e : Expression) (b : Q) : Constraint :=
  Inequality (Constant (Scalar b)) e.

Definition le (e : Expression) (b : Q) : Constraint :=
  Inequality e (Constant (Scalar b)).

Inductive Objective : Type :=
| Maximize (e : Expression).

Record Problem : Type := mkProblem {
  objective : Objective;
  constraints : list Constraint
}.

(** What a solve leaves behind: [problem.status], [problem.value] and the
    value of the unknown ([None] when there is no optimal point). *)
Record Solution : Type := mkSolution {
  status : string;
  opt_val : pyfloat;
  primal_vars : option ndarray
}.

(* ================================================================= *)
(** ** The notebook's first helper *)

(** [c[i] * (x**i)] *)
Definition pol_term {cvx : Cvxpy} (c : Expression) (x : ndarray) (i : nat)
  : result Expression :=
  (try ci <- getitem c (Z.of_nat i) ;; mul ci (power x i))%result.

(** [def pol_calc(c, x): return sum(c[i] * (x**i) for i in range(c.size))] *)
Definition pol_calc {cvx : Cvxpy} (c : Expression) (x : ndarray)
  : result Expression :=
  py_sum (map (pol_term c x) (range (size c))).

(* ================================================================= *)
(** ** Denotation of expressions and of a linear program *)

(** Elementwise operations broadcast a scalar operand. *)
Definition bcast (f : Q -> Q -> Q) (a b : ndvalue) : ndvalue :=
  match a, b with
  | Scalar p, Scalar q => Scalar (f p q)
  | Scalar p, Array r => Array (map (f p) r)
  | Array l, Scalar q => Array (map (fun v => f v q) l)
  | Array l, Array r => Array (map (fun pq => f (fst pq) (snd pq)) (combine l r))
  end.

Definition entry (v : ndvalue) (i : nat) : Q :=
  match v with
  | Scalar q => q
  | Array a => nth i a 0
  end.

(** The value of an expression when the unknown vector takes the value [c]
    (the problems of this notebook have the one unknown, [C]). *)
Fixpoint eval (c : ndarray) (e : Expression) : ndvalue :=
  match e with
  | Var _ => Array c
  | Constant v => v
  | index a i => Scalar (entry (eval c a) i)
  | multiply a b => bcast Qmult (eval c a) (eval c b)
  | AddExpression a b => bcast Qplus (eval c a) (eval c b)
  end.

Definition nd_le (a b : ndvalue) : Prop :=
  match a, b with
  | Scalar p, Scalar q => p <= q
  | Scalar p, Array r => Forall (fun v => p <= v) r
  | Array l, Scalar q => Forall (fun v => v <= q) l
  | Array l, Array r => Forall2 Qle l r
  end.

Definition holds (c : ndarray) (k : Constraint) : Prop :=
  match k with
  | Inequality l r => nd_le (eval c l) (eval c r)
  end.

(** The unknowns of a problem: the sizes of the variable leaves that occur
    in it, each once. *)
Fixpoint leaves (e : Expression) : list nat :=
  match e with
  | Var n => [n]
  | Constant _ => []
  | index a _ => leaves a
  | multiply a b => leaves a ++ leaves b
  | AddExpression a b => leaves a ++ leaves b
  end.

Definition constraint_leaves (k : Constraint) : list nat :=
  match k with
  | Inequality l r => leaves l ++ leaves r
  end.

Definition objective_expr (p : Problem) : Expression :=
  match objective p with
  | Maximize e => e
  end.

Definition variables (p : Problem) : list nat :=
  nodup Nat.eq_dec
    (leaves (objective_expr p) ++ flat_map constraint_leaves (constraints p)).

Definition feasible (p : Problem) (c : ndarray) : Prop :=
  variables p = [length c] /\ Forall (holds c) (constraints p).

Definition objective_value (p : Problem) (c : ndarray) : Q :=
  entry (eval c (objective_expr p)) 0.

Definition optimal (p : Problem) (c : ndarray) : Prop :=
  feasible p c /\
  forall c', feasible p c' -> objective_value p c' <= objective_value p c.

Definition unbounded (p : Problem) : Prop :=
  forall b : Q, exists c, feasible p c /\ b < objective_value p c.

Definition infeasible (p : Problem) : Prop :=
  forall c, ~ feasible p c.

(** The value of a maximisation problem, as CVXPY reports it: the maximum
    when one is attained, [inf] when the objective is unbounded above and
    [-inf] when no point is feasible. *)
Inductive lp_value (p : Problem) : pyfloat -> Prop :=
| lp_value_optimal c v :
    optimal p c -> v == objective_value p c -> lp_value p (Finite v)
| lp_value_unbounded :
    unbounded p -> lp_value p PosInf
| lp_value_infeasible :
    infeasible p -> lp_value p NegInf.

(** Order on reported values. *)
Definition pyfloat_le (a b : pyfloat) : Prop :=
  match a, b with
  | NegInf, _ => True
  | _, PosInf => True
  | Finite p, Finite q => p <= q
  | _, _ => False
  end.

(** What the three conclusive statuses of a solve mean for the problem that
    was submitted (the contract of the external LP solver). *)
Definition sound (p : Problem) (s : Solution) : Prop :=
  (status s = "optimal"%string ->
     exists c v, primal_vars s = Some c /\ optimal p c /\
                 opt_val s = Finite v /\ v == objective_value p c) /\
  (status s = "infeasible"%string ->
     infeasible p /\ opt_val s = NegInf /\ primal_vars s = None) /\
  (status s = "unbounded"%string ->
     unbounded p /\ opt_val s = PosInf /\ primal_vars s = None).

(* ================================================================= *)
(** ** Interfaces of the two external collaborators *)

(** NumPy's global generator: seeding, and one double in [0, 1) per step. *)
Class BitGenerator (G : Type) : Type := {
  seed_state : Z -> G;
  next_double : G -> Q * G;
  next_double_unit : forall g, 0 <= fst (next_double g) < 1
}.

(** The LP solver behind [problem.solve(solver=cp.GLPK)]: it answers with a
    solution or raises. *)
Class LPSolver : Type := {
  lp_solve : Problem -> result Solution
}.

(* ================================================================= *)
(** ** MT19937, the generator of NumPy's legacy [np.random] *)

Module MT19937.

Local Open Scope Z_scope.

(** Truncation to [uint32_t]. *)
Definition u32 (z : Z) : Z := Z.land z 0xffffffff.

Record state : Type := mkState { key : list Z; pos : nat }.

(** [mt19937_seed]: the linear-congruential fill of the 624 key words. *)
Fixpoint init_key (count : nat) (pos seed : Z) : list Z :=
  match count with
  | O => []
  | S k =>
      seed :: init_key k (pos + 1)
        (u32 (1812433253 * (Z.lxor seed (Z.shiftr seed 30)) + pos + 1))
  end.

Definition mt19937_seed (seed : Z) : state :=
  {| key := init_key 624 0 (u32 seed); pos := 624 |}.

Definition get (k : list Z) (i : nat) : Z := nth i k 0.

Fixpoint set (k : list Z) (i : nat) (v : Z) : list Z :=
  match k, i with
  | [], _ => []
  | _ :: t, O => v :: t
  | h :: t, S j => h :: set t j v
  end.

(** One step of [mt19937_gen], in place at word [i]; the three loops of
    the C function differ only in how [i + 1] and [i + 397] wrap. *)
Definition gen_at (k : list Z) (i : nat) : list Z :=
  let y := Z.lor (Z.land (get k i) 0x80000000)
                 (Z.land (get k ((i + 1) mod 624)) 0x7fffffff) in
  let mag := if Z.testbit y 0 then 0x9908b0df else 0 in
  set k i (Z.lxor (Z.lxor (get k ((i + 397) mod 624)) (Z.shiftr y 1)) mag).

Definition mt19937_gen (k : list Z) : list Z := fold_left gen_at (seq 0 624) k.

Definition temper (y : Z) : Z :=
  let y := Z.lxor y (Z.shiftr y 11) in
  let y := Z.lxor y (Z.land (Z.shiftl y 7) 0x9d2c5680) in
  let y := Z.lxor y (Z.land (Z.shiftl y 15) 0xefc60000) in
  Z.lxor y (Z.shiftr y 18).

Definition mt19937_next (s : state) : Z * state :=
  let s := if Nat.eqb (pos s) 624
           then {| key := mt19937_gen (key s); pos := 0 |} else s in
  (u32 (temper (get (key s) (pos s))), {| key := key s; pos := S (pos s) |}).

(** The word drawn after [n] earlier ones. *)
Fixpoint nth_word (n : nat) (s : state) : Z :=
  match n with
  | O => fst (mt19937_next s)
  | S k => nth_word k (snd (mt19937_next s))
  end.

(** [mt19937_next_double]: 27 and 26 high bits of two words. *)
Definition mt19937_next_double (s : state) : Q * state :=
  let (a, s1) := mt19937_next s in
  let (b, s2) := mt19937_next s1 in
  (Qmake (Z.shiftr a 5 * 67108864 + Z.shiftr b 6) 9007199254740992, s2).

End MT19937.

(* ================================================================= *)
(** ** The process state and the notebook's code *)

Record world (G : Type) : Type := mkWorld {
  rng : G;                    (* the state of np.random *)
  stdout : list pyobj         (* what has been printed, oldest first *)
}.

Arguments mkWorld {G} rng stdout.
Arguments rng {G} w.
Arguments stdout {G} w.

Definition M (G A : Type) : Type := world G -> result A * world G.

Definition ret {G A : Type} (a : A) : M G A := fun w => (Ok a, w).

Definition bind {G A B : Type} (m : M G A) (k : A -> M G B) : M G B :=
  fun w =>
    match m w with
    | (Ok a, w') => k a w'
    | (Raise e, w') => (Raise e, w')
    end.

Definition lift {G A : Type} (r : result A) : M G A := fun w => (r, w).

Declare Scope py_scope.
Delimit Scope py_scope with py.
Notation "x <- m ;; k" := (bind m (fun x => k))
  (at level 100, m at next level, k at level 200,
   right associativity) : py_scope.
Notation "m ;; k" := (bind m (fun _ => k))
  (at level 100, k at level 200, right associativity) : py_scope.

(** The local variables of [solve_degree_n] once the problem is built. *)
Record locals : Type := mkLocals {
  l_C : Expression;
  l_x : ndarray;
  l_pol_x : Expression;
  l_constraints : list Constraint;
  l_problem : Problem
}.

(** The defaults of [solve_degree_n]'s keyword parameters. *)
Definition n_sample_default : pynumber := PFloat (Finite 1e4).
Definition verbose_default : bool := true.

Section Notebook.

Context {G : Type} {gen : BitGenerator G} {solver : LPSolver} {cvx : Cvxpy}.

Local Open Scope py_scope.

(** [print(o)] *)
Definition print (o : pyobj) : M G unit :=
  fun w => (Ok tt, {| rng := rng w; stdout := stdout w ++ [o] |}).

(** [np.random.seed(s)]: a seed outside 32 bits is refused. *)
Definition np_random_seed (s : Z) : M G unit :=
  fun w =>
    if ((0 <=? s) && (s <? 2 ^ 32))%Z
    then (Ok tt, {| rng := seed_state s; stdout := stdout w |})
    else (Raise ValueError, w).

(** [count] successive doubles of the generator. *)
Fixpoint random_sample (count : nat) (g : G) : list Q * G :=
  match count with
  | O => ([], g)
  | S k =>
      let (d, g1) := next_double g in
      let (ds, g2) := random_sample k g1 in
      (d :: ds, g2)
  end.

(** [np.random.uniform(low, high, size)]: [size] has to be an integer (a
    float, whatever its value, raises TypeError: "'float' object cannot be
    interpreted as an integer") and not negative; each point is
    [low + (high - low) * d] for the next double [d]. *)
Definition np_random_uniform (low high : Q) (size : pynumber) : M G ndarray :=
  fun w =>
    match size with
    | PFloat _ => (Raise TypeError, w)
    | PInt m =>
        if (m <? 0)%Z then (Raise ValueError, w)
        else
          let (ds, g') := random_sample (Z.to_nat m) (rng w) in
          (Ok (map (fun d => low + (high - low) * d)%Q ds),
           {| rng := g'; stdout := stdout w |})
    end.

(** [problem.solve(solver=cp.GLPK)] *)
Definition problem_solve (p : Problem) : M G Solution := lift (lp_solve p).

(** [C.value] after the solve. *)
Definition value_of (s : Solution) : pyobj :=
  match primal_vars s with
  | Some a => PyArray a
  | None => PyNone
  end.

(** The module-level statements of the first cell that touch the modelled
    state: [np.random.seed(1234)].  ([np.set_printoptions] only changes
    how arrays are rendered.) *)
Definition module_init : M G unit := np_random_seed 1234.

(** [def solve_degree_n(n, n_sample=1e4, verbose=True)], lines 47-59 of
    the notebook. *)
Definition solve_degree_n (n : Z) (n_sample : pynumber) (verbose : bool)
  : M G pyobj :=
  C <- lift (cp_Variable (n + 1)) ;;
  x <- np_random_uniform (-1) 1 n_sample ;;
  pol_x <- lift (pol_calc C x) ;;
  lower <- lift (py_iter pol_x) ;;
  upper <- lift (py_iter pol_x) ;;
  let constraints :=
    map (fun px_i => ge px_i (-1)) lower
    ++ map (fun px_i => le px_i 1) upper in
  c1 <- lift (getitem C 1) ;;
  let problem := mkProblem (Maximize c1) constraints in
  sol <- problem_solve problem ;;
  (if verbose
   then print (PyStr (status sol)) ;; print (PyFloat (opt_val sol))
   else ret tt) ;;
  ret (value_of sol).

(** The same lines 48-53 on their own, handing back the local variables as
    they stand when [problem.solve] is about to be called. *)
Definition solve_degree_n_build (n : Z) (n_sample : pynumber) : M G locals :=
  C <- lift (cp_Variable (n + 1)) ;;
  x <- np_random_uniform (-1) 1 n_sample ;;
  pol_x <- lift (pol_calc C x) ;;
  lower <- lift (py_iter pol_x) ;;
  upper <- lift (py_iter pol_x) ;;
  let constraints :=
    map (fun px_i => ge px_i (-1)) lower
    ++ map (fun px_i => le px_i 1) upper in
  c1 <- lift (getitem C 1) ;;
  let problem := mkProblem (Maximize c1) constraints in
  ret (mkLocals C x pol_x constraints problem).

(** Lines 48-49 on their own, handing back the array [x] they draw. *)
Definition solve_degree_n_sample (n : Z) (n_sample : pynumber) : M G ndarray :=
  C <- lift (cp_Variable (n + 1)) ;;
  x <- np_random_uniform (-1) 1 n_sample ;;
  ret x.

(** A run of a fresh process: the first cell is loaded, then one call. *)
Definition fresh_run (n : Z) (n_sample : pynumber) (verbose : bool)
  : M G pyobj :=
  module_init ;; solve_degree_n n n_sample verbose.

End Notebook.

(* ================================================================= *)
(** ** Closed forms used to state the properties *)

(** The sum [c_0 * v^0 + ... + c_(k-1) * v^(k-1)], in the words of the
    specification (for degree [n], [k = n + 1]). *)
Fixpoint psum (c : ndarray) (v : Q) (k : nat) : Q :=
  match k with
  | O => 0
  | S i => psum c v i + nth i c 0 * v ^ Z.of_nat i
  end.

(** [C[i] * (x**i)] as a tree, for the unknown of size [k]. *)
Definition term_expr (k : nat) (x : ndarray) (i : nat) : Expression :=
  multiply (index (Var k) i) (Constant (Array (power x i))).

(** The tree [pol_calc] returns with the first [t] terms added. *)
Definition partial_sum (k : nat) (x : ndarray) (t : nat) : Expression :=
  fold_left (fun acc i => AddExpression acc (term_expr k x i)) (range t)
            (Constant (Scalar 0)).

Definition polynomial (k : nat) (x : ndarray) : Expression := partial_sum k x k.

Definition sampled_constraints (k : nat) (x : ndarray) : list Constraint :=
  map (fun px_i => ge px_i (-1)) (iterate (polynomial k x))
  ++ map (fun px_i => le px_i 1) (iterate (polynomial k x)).

Definition sampled_lp (k : nat) (x : ndarray) : Problem :=
  mkProblem (Maximize (index (Var k) 1)) (sampled_constraints k x).

Definition sampled_locals (k : nat) (x : ndarray) : locals :=
  mkLocals (Var k) x (polynomial k x) (sampled_constraints k x) (sampled_lp k x).

(** The points [np.random.uniform(-1, 1, m)] makes of [m] doubles. *)
Definition to_interval (ds : list Q) : ndarray :=
  map (fun d => -1 + (1 - -1) * d) ds.

(** The all-zero coefficient vector, and zero-padding. *)
Definition zeros (k : nat) : ndarray := repeat 0 k.

Definition pad (c : ndarray) (extra : nat) : ndarray := c ++ zeros extra.

(** [a * c + b * c'], entry by entry. *)
Definition lincomb (a : Q) (c : ndarray) (b : Q) (c' : ndarray) : ndarray :=
  map (fun pq => a * fst pq + b * snd pq) (combine c c').

Definition is_array_or_none (o : pyobj) : bool :=
  match o with
  | PyNone => true
  | PyArray _ => true
  | _ => false
  end.

(** What the call leaves on standard output. *)
Definition report (verbose : bool) (s : Solution) : list pyobj :=
  if verbose then [PyStr (status s); PyFloat (opt_val s)] else [].

(* ================================================================= *)
(** ** What a call samples, and what a fresh run achieves *)

Section Observations.

Context {G : Type} {gen : BitGenerator G} {cvx : Cvxpy}.

Local Open Scope py_scope.

(** The world after [np.random.uniform(-1, 1, m)] from [w]. *)
Definition after_sampling (m : nat) (w : world G) : world G :=
  {| rng := snd (random_sample m (rng w)); stdout := stdout w |}.

(** The array it returns. *)
Definition sample_points (m : nat) (w : world G) : ndarray :=
  to_interval (fst (random_sample m (rng w))).

(** The value of the problem that a fresh process builds for degree [n]
    and [m] samples: what a sound solve reports as [problem.value]. *)
Definition achieved (n m : Z) (w : world G) (v : pyfloat) : Prop :=
  exists fr w',
    (module_init ;; solve_degree_n_build n (PInt m)) w = (Ok fr, w') /\
    lp_value (l_problem fr) v.

(** The double drawn after [i] earlier ones. *)
Definition nth_double (i : nat) (g : G) : Q :=
  fst (next_double (snd (random_sample i g))).

(** None of the next [count] doubles equals [d0]. *)
Fixpoint distinct_from (d0 : Q) (count : nat) (g : G) : bool :=
  match count with
  | O => true
  | S k =>
      let (d, g') := next_double g in
      negb (Qeq_bool d d0) && distinct_from d0 k g'
  end.

End Observations.

(* ================================================================= *)
(** ** The notebook's second cell: the loop over the degrees *)

(** [str(n)] for a Python int. *)
Definition py_str (n : Z) : string := NilZero.string_of_int (Z.to_int n).

(** [range(a, b)] *)
Definition py_range (a b : Z) : list Z :=
  map (fun i => (a + Z.of_nat i)%Z) (seq 0 (Z.to_nat (b - a))).

(** The sample count the loop passes. *)
Definition demo_n_sample : Z := 5000.

(** ["For degree: " + str(n) + ":"] *)
Definition demo_label (n : Z) : pyobj :=
  PyStr ("For degree: " ++ py_str n ++ ":").

Section Demo.

Context {G : Type} {gen : BitGenerator G} {solver : LPSolver} {cvx : Cvxpy}.

Local Open Scope py_scope.

(** [for a in items: body(a)]: an exception in the body ends the loop. *)
Fixpoint for_in {A : Type} (items : list A) (body : A -> M G unit) : M G unit :=
  match items with
  | [] => ret tt
  | a :: rest => body a ;; for_in rest body
  end.

(** The body of the loop, lines 94-96. *)
Definition demo_body (n : Z) : M G unit :=
  sol <- solve_degree_n n (PInt demo_n_sample) false ;;
  print (demo_label n) ;;
  print sol.

(** [for n in range(1,9): ...], lines 93-96. *)
Definition demo : M G unit := for_in (py_range 1 9) demo_body.

(** The block of [m] sample points drawn after [k] earlier blocks. *)
Definition sample_block (m k : nat) (w : world G) : ndarray :=
  sample_points m (after_sampling (k * m) w).

End Demo.

(* ================================================================= *)
(** ** Data for concrete runs on NumPy's generator *)

(** The line through [(lo, -1)] and [(hi, 1)]. *)
Definition line_through (lo hi : Q) : ndarray :=
  [- (lo + hi) / (hi - lo); 2 / (hi - lo)].

(** A process right after [import numpy]: the global generator holds some
    state or other (here the one of seed 0) and nothing has been printed. *)
Definition imported : world MT19937.state :=
  {| rng := MT19937.mt19937_seed 0; stdout := [] |}.

(** The same process once the first cell has run. *)
Definition loaded : world MT19937.state :=
  {| rng := MT19937.mt19937_seed 1234; stdout := [] |}.

(** The first four points [np.random.uniform(-1, 1, ...)] returns after
    [np.random.seed(1234)]. *)
Definition pt0 : Q := -5557091553298666 # 9007199254740992.
Definition pt1 : Q := 2199716063014624 # 9007199254740992.
Definition pt2 : Q := -1121797325612310 # 9007199254740992.
Definition pt3 : Q := 5140563245121214 # 9007199254740992.

(** A stand-in for the solver in concrete runs: it answers [s]. *)
Definition answering (s : Solution) : LPSolver := {| lp_solve := fun _ => Ok s |}.

(** The optimum for degree 1 over the first two points. *)
Definition optimum_2 : Solution :=
  {| status := "optimal";
     opt_val := Finite (2 / (pt1 - pt0));
     primal_vars := Some (line_through pt0 pt1) |}.


(** The two kinds of CVXPY release. *)
Definition refusing_zero_dim : Cvxpy := {| accepts_zero_dim := false |}.
Definition accepting_zero_dim : Cvxpy := {| accepts_zero_dim := true |}.

(** What a solve leaves behind on an unbounded problem. *)
Definition unbounded_answer : Solution :=
  {| status := "unbounded"; opt_val := PosInf; primal_vars := None |}.

(* ================================================================= *)
(** ** Lemmas on the expression builders *)

Lemma power_length (x : ndarray) (i : nat) : length (power x i) = length x.
Proof. unfold power. apply length_map. Qed.

Lemma getitem_Var (k i : nat) :
  (i < k)%nat -> getitem (Var k) (Z.of_nat i) = Ok (index (Var k) i).
Proof.
  intros Hi. unfold getitem. cbn [shape].
  replace (Z.of_nat i <? 0)%Z with false by (symmetry; apply Z.ltb_ge; lia).
  replace (0 <=? Z.of_nat i)%Z with true by (symmetry; apply Z.leb_le; lia).
  replace (Z.of_nat i <? Z.of_nat k)%Z with true by (symmetry; apply Z.ltb_lt; lia).
  cbn. now rewrite Nat2Z.id.
Qed.

Lemma getitem_Var_out (k : nat) (i : Z) :
  (Z.of_nat k <= i)%Z -> getitem (Var k) i = Raise IndexError.
Proof.
  intros Hi. unfold getitem. cbn [shape].
  replace (i <? 0)%Z with false by (symmetry; apply Z.ltb_ge; lia).
  replace (i <? Z.of_nat k)%Z with false by (symmetry; apply Z.ltb_ge; lia).
  now rewrite andb_false_r.
Qed.

Lemma shape_term_expr (k : nat) (x : ndarray) (i : nat) :
  shape (term_expr k x i) = Vec (length x).
Proof. cbn. now rewrite power_length. Qed.

Section Builders.

Context {cvx : Cvxpy}.

Lemma valid_dim_pos (d : Z) : (0 < d)%Z -> valid_dim d = true.
Proof.
  intros Hd. unfold valid_dim.
  destruct accepts_zero_dim; [apply Z.leb_le|apply Z.ltb_lt]; lia.
Qed.

Lemma valid_dim_neg (d : Z) : (d < 0)%Z -> valid_dim d = false.
Proof.
  intros Hd. unfold valid_dim.
  destruct accepts_zero_dim; [apply Z.leb_gt|apply Z.ltb_ge]; lia.
Qed.

Lemma valid_dim_0 : valid_dim 0 = accepts_zero_dim.
Proof. unfold valid_dim. now destruct accepts_zero_dim. Qed.

(** A dimension that passes the check is not negative, and one that fails
    it is not positive. *)
Lemma valid_dim_true (d : Z) :
  valid_dim d = true -> (0 < d)%Z \/ d = 0%Z /\ accepts_zero_dim = true.
Proof.
  unfold valid_dim. destruct accepts_zero_dim; intros H.
  - apply Z.leb_le in H. destruct (Z.eq_dec d 0); [now right|left; lia].
  - apply Z.ltb_lt in H. now left.
Qed.

Lemma valid_dim_false (d : Z) :
  valid_dim d = false -> (d < 0)%Z \/ d = 0%Z /\ accepts_zero_dim = false.
Proof.
  unfold valid_dim. destruct accepts_zero_dim; intros H.
  - apply Z.leb_gt in H. now left.
  - apply Z.ltb_ge in H. destruct (Z.eq_dec d 0); [now right|left; lia].
Qed.

Lemma valid_dim_nonempty (x : ndarray) :
  x <> [] -> valid_dim (Z.of_nat (length x)) = true.
Proof.
  intros Hx. apply valid_dim_pos. destruct x; [congruence|cbn [length]; lia].
Qed.

Lemma pol_term_Var (k : nat) (x : ndarray) (i : nat) :
  (i < k)%nat -> valid_dim (Z.of_nat (length x)) = true ->
  pol_term (Var k) x i = Ok (term_expr k x i).
Proof.
  intros Hi Hx. unfold pol_term. rewrite (getitem_Var k i Hi). cbn [rbind].
  unfold mul, cast_to_const, term_expr. rewrite power_length, Hx. reflexivity.
Qed.

Lemma pol_term_empty (k i : nat) :
  (i < k)%nat -> accepts_zero_dim = false ->
  pol_term (Var k) [] i = Raise ValueError.
Proof.
  intros Hi Hz. unfold pol_term. rewrite (getitem_Var k i Hi). cbn [rbind].
  unfold mul, cast_to_const. cbn [power map length Z.of_nat].
  now rewrite valid_dim_0, Hz.
Qed.

Lemma sum_from_terms (k : nat) (x : ndarray) (l : list nat) (acc : Expression) :
  valid_dim (Z.of_nat (length x)) = true ->
  Forall (fun i => (i < k)%nat) l ->
  shape acc = Sc \/ shape acc = Vec (length x) ->
  sum_from acc (map (pol_term (Var k) x) l)
  = Ok (fold_left (fun a i => AddExpression a (term_expr k x i)) l acc).
Proof.
  intros Hx Hl. revert acc.
  induction Hl as [|i l Hi Hl IH]; intros acc Hacc; [reflexivity|].
  cbn [map sum_from fold_left]. rewrite (pol_term_Var k x i Hi Hx). cbn [rbind].
  assert (Hadd : add acc (term_expr k x i) = Ok (AddExpression acc (term_expr k x i))).
  { unfold add. rewrite shape_term_expr.
    destruct Hacc as [-> | ->]; cbn; [reflexivity|].
    now rewrite Nat.eqb_refl. }
  rewrite Hadd. cbn [rbind]. apply IH.
  right. cbn [shape]. fold (term_expr k x i). rewrite shape_term_expr.
  destruct Hacc as [-> | ->]; reflexivity.
Qed.

Lemma range_lt (k : nat) : Forall (fun i => (i < k)%nat) (range k).
Proof. apply Forall_forall. intros i Hi. apply in_seq in Hi. lia. Qed.

(** On the unknown of size [k] and an array whose length is a valid
    dimension, [pol_calc] succeeds and returns the tree [polynomial k x]. *)
Lemma pol_calc_Var (k : nat) (x : ndarray) :
  valid_dim (Z.of_nat (length x)) = true ->
  pol_calc (Var k) x = Ok (polynomial k x).
Proof.
  intros Hx. unfold pol_calc, py_sum, polynomial, partial_sum, size. cbn [shape].
  apply sum_from_terms; auto using range_lt.
Qed.

(** With no sample, where a zero dimension is refused, the first product
    already fails. *)
Lemma pol_calc_empty (k : nat) :
  (0 < k)%nat -> accepts_zero_dim = false ->
  pol_calc (Var k) [] = Raise ValueError.
Proof.
  intros Hk Hz. unfold pol_calc, py_sum, size, range. cbn [shape].
  destruct k as [|k]; [lia|].
  cbn [seq map sum_from]. rewrite pol_term_empty by (lia || exact Hz).
  reflexivity.
Qed.

End Builders.

Lemma range_S (t : nat) : range (S t) = range t ++ [t].
Proof. unfold range. now rewrite seq_S. Qed.

Lemma partial_sum_S (k : nat) (x : ndarray) (t : nat) :
  partial_sum k x (S t) = AddExpression (partial_sum k x t) (term_expr k x t).
Proof. unfold partial_sum. rewrite range_S, fold_left_app. reflexivity. Qed.

Lemma shape_partial_sum (k : nat) (x : ndarray) (t : nat) :
  shape (partial_sum k x t) = match t with O => Sc | S _ => Vec (length x) end.
Proof.
  induction t as [|t IH]; [reflexivity|].
  rewrite partial_sum_S. cbn [shape]. fold (term_expr k x t).
  rewrite IH, shape_term_expr. destruct t; reflexivity.
Qed.

Lemma map2_same {A : Type} (f g : A -> Q) (h : Q -> Q -> Q) (l : list A) :
  map (fun pq => h (fst pq) (snd pq)) (combine (map f l) (map g l))
  = map (fun a => h (f a) (g a)) l.
Proof. induction l as [|a l IH]; cbn; [reflexivity|]. now rewrite IH. Qed.

(** The value of the partial sums at a coefficient vector [c]. *)
Lemma eval_partial_sum (c : ndarray) (k : nat) (x : ndarray) (t : nat) :
  eval c (partial_sum k x t)
  = match t with
    | O => Scalar 0
    | S _ => Array (map (fun v => psum c v t) x)
    end.
Proof.
  induction t as [|t IH]; [reflexivity|].
  rewrite partial_sum_S. unfold term_expr. cbn [eval]. rewrite IH.
  cbn [entry bcast]. unfold power. destruct t as [|t].
  - cbn [bcast]. rewrite !map_map. reflexivity.
  - cbn [bcast]. rewrite map_map.
    rewrite (map2_same (fun v => psum c v (S t))
                       (fun v => nth (S t) c 0 * v ^ Z.of_nat (S t)) Qplus).
    reflexivity.
Qed.

Lemma eval_polynomial (c : ndarray) (k : nat) (x : ndarray) :
  (0 < k)%nat -> eval c (polynomial k x) = Array (map (fun v => psum c v k) x).
Proof.
  intros Hk. unfold polynomial. rewrite eval_partial_sum.
  destruct k; [lia|reflexivity].
Qed.

Lemma iterate_polynomial (k : nat) (x : ndarray) :
  (0 < k)%nat ->
  iterate (polynomial k x) = map (index (polynomial k x)) (range (length x)).
Proof.
  intros Hk. unfold iterate, polynomial. rewrite shape_partial_sum.
  destruct k; [lia|reflexivity].
Qed.

(** What [pol_calc] returns for an unknown with at least one entry is an
    expression, and iterable; for an unknown with none it is the int 0. *)
Lemma py_iter_polynomial (k : nat) (x : ndarray) :
  (0 < k)%nat -> py_iter (polynomial k x) = Ok (iterate (polynomial k x)).
Proof.
  intros Hk. unfold polynomial. destruct k as [|k]; [lia|].
  now rewrite partial_sum_S.
Qed.

Lemma py_iter_polynomial_0 (x : ndarray) :
  py_iter (polynomial 0 x) = Raise TypeError.
Proof. reflexivity. Qed.

(* ================================================================= *)
(** ** Lemmas on the sampled linear program *)

Lemma nth_range (a : ndarray) :
  map (fun j => nth j a 0) (range (length a)) = a.
Proof.
  unfold range. induction a as [|h t IH]; [reflexivity|].
  cbn [length seq map nth]. f_equal.
  rewrite <- seq_shift, map_map. exact IH.
Qed.

Lemma leaves_partial_sum (k : nat) (x : ndarray) (t : nat) :
  Forall (eq k) (leaves (partial_sum k x t)).
Proof.
  induction t as [|t IH]; [constructor|].
  rewrite partial_sum_S. cbn. apply Forall_app. split; [exact IH|].
  repeat constructor.
Qed.

Lemma nodup_all_eq (k : nat) (l : list nat) :
  Forall (eq k) l -> nodup Nat.eq_dec (k :: l) = [k].
Proof.
  induction 1 as [|j l Hj Hl IH]; [reflexivity|]. subst j.
  cbn [nodup]. destruct (in_dec Nat.eq_dec k (k :: l)) as [_|Hn].
  - exact IH.
  - exfalso. apply Hn. now left.
Qed.

Lemma leaves_sampled_constraints (k : nat) (x : ndarray) :
  Forall (eq k) (flat_map constraint_leaves (sampled_constraints k x)).
Proof.
  apply Forall_forall. intros j Hj. apply in_flat_map in Hj.
  destruct Hj as (kc & Hkc & Hj). unfold sampled_constraints in Hkc.
  assert (Hleaf : forall e, In e (iterate (polynomial k x)) ->
                            Forall (eq k) (leaves e)).
  { intros e He. unfold iterate in He.
    destruct (shape (polynomial k x)); [contradiction|].
    apply in_map_iff in He. destruct He as (i & <- & _). cbn.
    apply leaves_partial_sum. }
  apply in_app_or in Hkc. destruct Hkc as [Hkc | Hkc];
    apply in_map_iff in Hkc; destruct Hkc as (e & <- & He);
    specialize (Hleaf e He); rewrite Forall_forall in Hleaf;
    cbn in Hj; rewrite ?app_nil_r in Hj; auto.
Qed.

(** The unknowns of the sampled problem: the one vector of size [k]. *)
Lemma variables_sampled_lp (k : nat) (x : ndarray) :
  variables (sampled_lp k x) = [k].
Proof.
  unfold variables. cbn [sampled_lp objective_expr objective constraints leaves app].
  apply nodup_all_eq, leaves_sampled_constraints.
Qed.

Lemma objective_value_sampled_lp (k : nat) (x c : ndarray) :
  objective_value (sampled_lp k x) c = nth 1 c 0.
Proof. reflexivity. Qed.

Lemma holds_lower (c : ndarray) (k : nat) (x : ndarray) :
  (0 < k)%nat ->
  Forall (holds c) (map (fun px_i => ge px_i (-1)) (iterate (polynomial k x)))
  <-> Forall (fun v => -1 <= psum c v k) x.
Proof.
  intros Hk. rewrite (iterate_polynomial k x Hk), map_map, Forall_map.
  cbn [holds ge eval nd_le]. rewrite (eval_polynomial c k x Hk). cbn [entry].
  rewrite <- (length_map (fun v => psum c v k) x).
  rewrite <- (Forall_map (fun j => nth j (map (fun v => psum c v k) x) 0)
                         (fun q => -1 <= q)).
  rewrite nth_range. apply Forall_map.
Qed.

Lemma holds_upper (c : ndarray) (k : nat) (x : ndarray) :
  (0 < k)%nat ->
  Forall (holds c) (map (fun px_i => le px_i 1) (iterate (polynomial k x)))
  <-> Forall (fun v => psum c v k <= 1) x.
Proof.
  intros Hk. rewrite (iterate_polynomial k x Hk), map_map, Forall_map.
  cbn [holds le eval nd_le]. rewrite (eval_polynomial c k x Hk). cbn [entry].
  rewrite <- (length_map (fun v => psum c v k) x).
  rewrite <- (Forall_map (fun j => nth j (map (fun v => psum c v k) x) 0)
                         (fun q => q <= 1)).
  rewrite nth_range. apply Forall_map.
Qed.

(** Feasibility for the sampled problem, point by point. *)
Lemma feasible_sampled_lp (k : nat) (x c : ndarray) :
  (0 < k)%nat ->
  feasible (sampled_lp k x) c
  <-> length c = k /\ Forall (fun v => -1 <= psum c v k <= 1) x.
Proof.
  intros Hk. unfold feasible. rewrite variables_sampled_lp.
  cbn [sampled_lp constraints]. unfold sampled_constraints.
  rewrite Forall_app, (holds_lower c k x Hk), (holds_upper c k x Hk).
  rewrite !Forall_forall. split.
  - intros (Hlen & Hlo & Hhi). split; [congruence|].
    intros v Hv. split; auto.
  - intros (Hlen & Hb). split; [congruence|].
    split; intros v Hv; apply (Hb v Hv).
Qed.

(* ================================================================= *)
(** ** Lemmas on the polynomial sum *)

Lemma nth_zeros (i k : nat) : nth i (zeros k) 0 = 0.
Proof.
  unfold zeros. revert i. induction k as [|k IH]; intros [|i]; cbn; auto.
Qed.

Lemma psum_zeros (k' : nat) (v : Q) (k : nat) : psum (zeros k') v k == 0.
Proof.
  induction k as [|k IH]; [reflexivity|].
  cbn [psum]. rewrite IH, nth_zeros. ring.
Qed.

Lemma psum_ext (c c' : ndarray) (v : Q) (k : nat) :
  (forall i, (i < k)%nat -> nth i c 0 == nth i c' 0) ->
  psum c v k == psum c' v k.
Proof.
  induction k as [|k IH]; intros H; [reflexivity|].
  cbn [psum]. rewrite IH by (intros i Hi; apply H; lia).
  rewrite (H k) by lia. reflexivity.
Qed.

Lemma nth_pad (c : ndarray) (extra i : nat) : nth i (pad c extra) 0 = nth i c 0.
Proof.
  unfold pad. destruct (Nat.lt_ge_cases i (length c)) as [Hi | Hi].
  - now rewrite app_nth1.
  - rewrite app_nth2 by exact Hi. rewrite nth_zeros.
    symmetry. now apply nth_overflow.
Qed.

(** Beyond the end of [c] the terms vanish. *)
Lemma psum_overflow (c : ndarray) (v : Q) (k extra : nat) :
  length c = k -> psum c v (k + extra) == psum c v k.
Proof.
  intros Hlen. induction extra as [|e IH].
  - now rewrite Nat.add_0_r.
  - rewrite Nat.add_succ_r. cbn [psum]. rewrite IH.
    rewrite nth_overflow by lia. ring.
Qed.

Lemma psum_pad (c : ndarray) (v : Q) (k extra : nat) :
  length c = k -> psum (pad c extra) v (k + extra) == psum c v k.
Proof.
  intros Hlen. rewrite <- (psum_overflow c v k extra Hlen).
  apply psum_ext. intros i _. now rewrite nth_pad.
Qed.

Lemma nth_lincomb (a b : Q) (c c' : ndarray) (i : nat) :
  length c = length c' ->
  nth i (lincomb a c b c') 0 == a * nth i c 0 + b * nth i c' 0.
Proof.
  unfold lincomb. revert c' i.
  induction c as [|p c IH]; intros [|q c'] i Hlen; try discriminate.
  - destruct i; cbn; ring.
  - destruct i as [|i]; cbn [combine map nth fst snd]; [reflexivity|].
    apply IH. now injection Hlen.
Qed.

Lemma psum_lincomb (a b : Q) (c c' : ndarray) (v : Q) (k : nat) :
  length c = length c' ->
  psum (lincomb a c b c') v k == a * psum c v k + b * psum c' v k.
Proof.
  intros Hlen. induction k as [|k IH]; cbn [psum]; [ring|].
  rewrite IH, (nth_lincomb a b c c' k Hlen). ring.
Qed.

(* ================================================================= *)
(** ** Lemmas on the generator and on the build *)

Section Sampling.

Context {G : Type} {gen : BitGenerator G} {cvx : Cvxpy}.

Lemma random_sample_length (m : nat) (g : G) :
  length (fst (random_sample m g)) = m.
Proof.
  revert g. induction m as [|m IH]; intros g; [reflexivity|].
  cbn [random_sample]. destruct (next_double g) as [d g1].
  specialize (IH g1). destruct (random_sample m g1) as [ds g2].
  cbn in *. now rewrite IH.
Qed.

Lemma random_sample_unit (m : nat) (g : G) :
  Forall (fun d => 0 <= d < 1) (fst (random_sample m g)).
Proof.
  revert g. induction m as [|m IH]; intros g; [constructor|].
  cbn [random_sample]. pose proof (next_double_unit g) as Hd.
  destruct (next_double g) as [d g1].
  specialize (IH g1). destruct (random_sample m g1) as [ds g2].
  cbn in *. now constructor.
Qed.

(** Drawing [a + b] doubles is drawing [a], then [b] from where that
    stopped. *)
Lemma random_sample_add (a b : nat) (g : G) :
  random_sample (a + b) g
  = (fst (random_sample a g) ++ fst (random_sample b (snd (random_sample a g))),
     snd (random_sample b (snd (random_sample a g)))).
Proof.
  revert g. induction a as [|a IH]; intros g.
  - cbn. now destruct (random_sample b g).
  - cbn [Nat.add random_sample]. destruct (next_double g) as [d g1].
    rewrite IH. destruct (random_sample a g1) as [ds g2]. reflexivity.
Qed.

Lemma to_interval_length (ds : list Q) : length (to_interval ds) = length ds.
Proof. apply length_map. Qed.

Lemma to_interval_range (ds : list Q) :
  Forall (fun d => 0 <= d < 1) ds ->
  Forall (fun v => -1 <= v < 1) (to_interval ds).
Proof.
  intros H. unfold to_interval. apply Forall_map.
  eapply Forall_impl; [|exact H]. cbn. intros d Hd. lra.
Qed.

Lemma np_random_uniform_int (m : Z) (w : world G) :
  (0 <= m)%Z ->
  np_random_uniform (-1) 1 (PInt m) w
  = (Ok (sample_points (Z.to_nat m) w), after_sampling (Z.to_nat m) w).
Proof.
  intros Hm. unfold np_random_uniform, sample_points, after_sampling.
  replace (m <? 0)%Z with false by (symmetry; apply Z.ltb_ge; lia).
  now destruct (random_sample (Z.to_nat m) (rng w)).
Qed.

(** With an integer size that is not negative, the sampling step returns
    that many points, each in [-1, 1), and prints nothing. *)
Lemma np_random_uniform_draws (m : Z) (w : world G) :
  (0 <= m)%Z ->
  exists x w',
    np_random_uniform (-1) 1 (PInt m) w = (Ok x, w') /\
    Z.of_nat (length x) = m /\
    Forall (fun v => -1 <= v < 1) x /\
    stdout w' = stdout w.
Proof.
  intros Hm. eexists. eexists.
  split; [apply np_random_uniform_int; exact Hm|].
  unfold sample_points. split.
  - rewrite to_interval_length, random_sample_length. lia.
  - split; [apply to_interval_range, random_sample_unit|reflexivity].
Qed.

Lemma sample_points_length (m : nat) (w : world G) :
  length (sample_points m w) = m.
Proof.
  unfold sample_points. now rewrite to_interval_length, random_sample_length.
Qed.

Lemma sample_points_nonempty (m : nat) (w : world G) :
  (0 < m)%nat -> sample_points m w <> [].
Proof.
  intros Hm He. apply (f_equal (@length Q)) in He.
  rewrite sample_points_length in He. cbn in He. lia.
Qed.

Lemma after_sampling_0 (w : world G) : after_sampling 0 w = w.
Proof. now destruct w. Qed.

(** Lines 48-53 on every input, in the order in which the checks bite:
    the dimension of [C]; the type and the sign of [n_sample]; for an
    unknown without entries the iteration over the int 0; the dimension
    of the promoted array; and the key of [C[1]]. *)
Lemma solve_degree_n_build_cases (n : Z) (ns : pynumber) (w : world G) :
  solve_degree_n_build n ns w
  = if valid_dim (n + 1) then
      match ns with
      | PFloat _ => (Raise TypeError, w)
      | PInt m =>
          if (m <? 0)%Z then (Raise ValueError, w)
          else if (n =? -1)%Z
               then (Raise TypeError, after_sampling (Z.to_nat m) w)
               else if valid_dim m then
                      if (n =? 0)%Z
                      then (Raise IndexError, after_sampling (Z.to_nat m) w)
                      else (Ok (sampled_locals (Z.to_nat (n + 1))
                                               (sample_points (Z.to_nat m) w)),
                            after_sampling (Z.to_nat m) w)
                    else (Raise ValueError, after_sampling (Z.to_nat m) w)
      end
    else (Raise ValueError, w).
Proof.
  unfold solve_degree_n_build, bind, lift, ret, cp_Variable.
  destruct (valid_dim (n + 1)) eqn:Hn; [|reflexivity].
  destruct ns as [m|f]; [|reflexivity].
  destruct (m <? 0)%Z eqn:Hm;
    [unfold np_random_uniform; now rewrite Hm|].
  apply Z.ltb_ge in Hm. rewrite np_random_uniform_int by exact Hm.
  assert (Hlen : Z.of_nat (length (sample_points (Z.to_nat m) w)) = m)
    by (rewrite sample_points_length; lia).
  destruct (n =? -1)%Z eqn:Hn1.
  { apply Z.eqb_eq in Hn1. subst n. reflexivity. }
  apply Z.eqb_neq in Hn1.
  assert (Hk : (0 < n + 1)%Z)
    by (destruct (valid_dim_true _ Hn) as [H | [H _]]; lia).
  destruct (valid_dim m) eqn:Hvm.
  - rewrite pol_calc_Var by now rewrite Hlen.
    rewrite py_iter_polynomial by lia.
    destruct (n =? 0)%Z eqn:Hn0.
    + apply Z.eqb_eq in Hn0. subst n. reflexivity.
    + apply Z.eqb_neq in Hn0.
      change 1%Z with (Z.of_nat 1). rewrite getitem_Var by lia.
      reflexivity.
  - destruct (valid_dim_false _ Hvm) as [H | [-> Hz]]; [lia|].
    cbn [Z.to_nat]. change (sample_points 0 w) with (@nil Q).
    rewrite pol_calc_empty by (lia || exact Hz). reflexivity.
Qed.

(** For a degree of at least 1 and at least one sample, lines 48-53
    succeed and build the sampled problem over the points drawn. *)
Lemma solve_degree_n_build_ok (n m : Z) (w : world G) :
  (1 <= n)%Z -> (1 <= m)%Z ->
  solve_degree_n_build n (PInt m) w
  = (Ok (sampled_locals (Z.to_nat (n + 1)) (sample_points (Z.to_nat m) w)),
     after_sampling (Z.to_nat m) w).
Proof.
  intros Hn Hm. rewrite solve_degree_n_build_cases.
  rewrite !valid_dim_pos by lia.
  replace (m <? 0)%Z with false by (symmetry; apply Z.ltb_ge; lia).
  replace (n =? -1)%Z with false by (symmetry; apply Z.eqb_neq; lia).
  replace (n =? 0)%Z with false by (symmetry; apply Z.eqb_neq; lia).
  reflexivity.
Qed.

(** A build that succeeds was given a degree of at least 1 and an integer
    sample count that is not negative, and is the sampled problem over the
    points drawn. *)
Lemma solve_degree_n_build_inv (n : Z) (ns : pynumber) (w w1 : world G)
      (fr : locals) :
  solve_degree_n_build n ns w = (Ok fr, w1) ->
  exists m,
    ns = PInt m /\ (1 <= n)%Z /\ (0 <= m)%Z /\
    fr = sampled_locals (Z.to_nat (n + 1)) (sample_points (Z.to_nat m) w) /\
    w1 = after_sampling (Z.to_nat m) w.
Proof.
  rewrite solve_degree_n_build_cases.
  destruct (valid_dim (n + 1)) eqn:Hn; [|discriminate].
  destruct ns as [m|f]; [|discriminate].
  destruct (m <? 0)%Z eqn:Hm; [discriminate|]. apply Z.ltb_ge in Hm.
  destruct (n =? -1)%Z eqn:Hn1; [discriminate|]. apply Z.eqb_neq in Hn1.
  destruct (valid_dim m); [|discriminate].
  destruct (n =? 0)%Z eqn:Hn0; [discriminate|]. apply Z.eqb_neq in Hn0.
  intros [= <- <-]. exists m.
  destruct (valid_dim_true _ Hn) as [H | [H _]]; repeat split; lia.
Qed.

(** What lines 48-53 leave of the generator: it has moved by the doubles
    of line 49 when that line was reached with an integer, and not at
    all otherwise. *)
Lemma solve_degree_n_build_rng (n : Z) (ns : pynumber) (w : world G) :
  rng (snd (solve_degree_n_build n ns w))
  = match ns with
    | PFloat _ => rng w
    | PInt m =>
        if valid_dim (n + 1)
        then snd (random_sample (Z.to_nat m) (rng w))
        else rng w
    end.
Proof.
  rewrite solve_degree_n_build_cases.
  destruct (valid_dim (n + 1)); [|now destruct ns].
  destruct ns as [m|f]; [|reflexivity].
  destruct (m <? 0)%Z eqn:Hm.
  - apply Z.ltb_lt in Hm. replace (Z.to_nat m) with 0%nat by lia. reflexivity.
  - destruct (n =? -1)%Z; [reflexivity|].
    destruct (valid_dim m); [|reflexivity].
    destruct (n =? 0)%Z; reflexivity.
Qed.


(** Lines 48-49 on their own: the array they draw. *)
Lemma solve_degree_n_sample_int (n m : Z) (w : world G) :
  valid_dim (n + 1) = true -> (0 <= m)%Z ->
  solve_degree_n_sample n (PInt m) w
  = (Ok (sample_points (Z.to_nat m) w), after_sampling (Z.to_nat m) w).
Proof.
  intros Hn Hm. unfold solve_degree_n_sample, bind, lift, ret, cp_Variable.
  rewrite Hn. now rewrite np_random_uniform_int by exact Hm.
Qed.

End Sampling.

(* ================================================================= *)
(** ** MT19937 as a [BitGenerator] *)

Lemma u32_range (z : Z) : (0 <= MT19937.u32 z < 2 ^ 32)%Z.
Proof.
  unfold MT19937.u32. change 0xffffffff%Z with (Z.ones 32).
  rewrite Z.land_ones by lia. apply Z.mod_pos_bound. lia.
Qed.

Lemma mt19937_next_range (s : MT19937.state) :
  (0 <= fst (MT19937.mt19937_next s) < 2 ^ 32)%Z.
Proof. unfold MT19937.mt19937_next. cbn [fst]. apply u32_range. Qed.

Lemma mt19937_next_double_unit (s : MT19937.state) :
  0 <= fst (MT19937.mt19937_next_double s) < 1.
Proof.
  unfold MT19937.mt19937_next_double.
  pose proof (mt19937_next_range s) as Ha.
  destruct (MT19937.mt19937_next s) as [a s1].
  pose proof (mt19937_next_range s1) as Hb.
  destruct (MT19937.mt19937_next s1) as [b s2]. cbn [fst] in *.
  rewrite !Z.shiftr_div_pow2 by lia.
  assert (Ha' : (0 <= a / 2 ^ 5 < 2 ^ 27)%Z).
  { split; [apply Z.div_pos; lia|apply Z.div_lt_upper_bound; lia]. }
  assert (Hb' : (0 <= b / 2 ^ 6 < 2 ^ 26)%Z).
  { split; [apply Z.div_pos; lia|apply Z.div_lt_upper_bound; lia]. }
  unfold Qle, Qlt. cbn [Qnum Qden]. lia.
Qed.

(** Conformance of the model: the reference values of MT19937 (the first
    and the 10000th word for the seed 5489), and the first double NumPy
    returns after [np.random.seed(1234)], 0.1915194503788923. *)
Example mt19937_reference_words :
  MT19937.nth_word 0 (MT19937.mt19937_seed 5489) = 3499211612%Z /\
  MT19937.nth_word (Z.to_nat 9999) (MT19937.mt19937_seed 5489) = 4123659995%Z.
Proof. split; vm_compute; reflexivity. Qed.

Example mt19937_first_double_1234 :
  fst (MT19937.mt19937_next_double (MT19937.mt19937_seed 1234))
  = 1725053850721163 # 9007199254740992.
Proof. vm_compute. reflexivity. Qed.

#[export] Instance mt19937 : BitGenerator MT19937.state := {|
  seed_state := MT19937.mt19937_seed;
  next_double := MT19937.mt19937_next_double;
  next_double_unit := mt19937_next_double_unit
|}.

(* ================================================================= *)
(** ** Monotonicity of the sampled problem *)

(** Dropping sample points can only enlarge the feasible set. *)
Lemma feasible_fewer_samples (k : nat) (x1 x2 c : ndarray) :
  (0 < k)%nat -> incl x1 x2 ->
  feasible (sampled_lp k x2) c -> feasible (sampled_lp k x1) c.
Proof.
  intros Hk Hincl. rewrite !feasible_sampled_lp by exact Hk.
  intros (Hlen & Hb). split; [exact Hlen|].
  rewrite Forall_forall in *. intros v Hv. apply Hb, Hincl, Hv.
Qed.

(** A feasible coefficient vector stays feasible, with the same objective,
    when it is zero-padded to a higher degree. *)
Lemma feasible_pad (k extra : nat) (x c : ndarray) :
  (0 < k)%nat ->
  feasible (sampled_lp k x) c -> feasible (sampled_lp (k + extra) x) (pad c extra).
Proof.
  intros Hk. rewrite !feasible_sampled_lp by lia.
  intros (Hlen & Hb). split.
  - unfold pad, zeros. rewrite length_app, repeat_length. lia.
  - eapply Forall_impl; [|exact Hb]. cbn. intros v Hv.
    now rewrite (psum_pad c v k extra Hlen).
Qed.

Lemma objective_value_pad (k extra : nat) (x c : ndarray) :
  objective_value (sampled_lp (k + extra) x) (pad c extra)
  = objective_value (sampled_lp k x) c.
Proof. rewrite !objective_value_sampled_lp. apply nth_pad. Qed.

Lemma zeros_feasible (k : nat) (x : ndarray) :
  (0 < k)%nat -> feasible (sampled_lp k x) (zeros k).
Proof.
  intros Hk. apply feasible_sampled_lp; [exact Hk|]. split.
  - apply repeat_length.
  - apply Forall_forall. intros v _. rewrite psum_zeros. lra.
Qed.

(** If every feasible point of [p2] maps to a feasible point of [p1] with
    the same objective, the value of [p2] is at most the value of [p1]. *)
Lemma lp_value_le (p1 p2 : Problem) (f : ndarray -> ndarray) (v1 v2 : pyfloat) :
  (forall c, feasible p2 c ->
             feasible p1 (f c) /\ objective_value p1 (f c) == objective_value p2 c) ->
  lp_value p1 v1 -> lp_value p2 v2 -> pyfloat_le v2 v1.
Proof.
  intros Hf H1 H2.
  destruct H2 as [c2 q2 [Hfeas2 Hmax2] Hq2 | Hunb2 | Hinf2]; [| |exact I].
  - destruct (Hf c2 Hfeas2) as [Hfeas1 Hobj].
    destruct H1 as [c1 q1 [Hfeas1' Hmax1] Hq1 | Hunb1 | Hinf1]; cbn.
    + rewrite Hq2, Hq1, <- Hobj. apply Hmax1, Hfeas1.
    + exact I.
    + exact (Hinf1 _ Hfeas1).
  - destruct H1 as [c1 q1 [Hfeas1 Hmax1] Hq1 | Hunb1 | Hinf1]; cbn.
    + destruct (Hunb2 (objective_value p1 c1)) as (c & Hc & Hlt).
      destruct (Hf c Hc) as [Hc1 Hobj].
      specialize (Hmax1 _ Hc1). rewrite Hobj in Hmax1. lra.
    + exact I.
    + destruct (Hunb2 0) as (c & Hc & _).
      destruct (Hf c Hc) as [Hc1 _]. exact (Hinf1 _ Hc1).
Qed.

Lemma lp_value_fewer_samples (k : nat) (x1 x2 : ndarray) (v1 v2 : pyfloat) :
  (0 < k)%nat -> incl x1 x2 ->
  lp_value (sampled_lp k x1) v1 -> lp_value (sampled_lp k x2) v2 ->
  pyfloat_le v2 v1.
Proof.
  intros Hk Hincl. apply lp_value_le with (f := fun c => c).
  intros c Hc. split; [now apply (feasible_fewer_samples k x1 x2 c Hk Hincl)|].
  rewrite !objective_value_sampled_lp. reflexivity.
Qed.

Lemma lp_value_higher_degree (k extra : nat) (x : ndarray) (v v' : pyfloat) :
  (0 < k)%nat ->
  lp_value (sampled_lp k x) v -> lp_value (sampled_lp (k + extra) x) v' ->
  pyfloat_le v v'.
Proof.
  intros Hk Hv Hv'. apply lp_value_le with (3 := Hv) (2 := Hv')
                                           (f := fun c => pad c extra).
  intros c Hc. split; [now apply feasible_pad|].
  rewrite objective_value_pad. reflexivity.
Qed.

(** Without a sample there is no constraint, and the objective is
    unbounded at every degree from 1 on. *)
Lemma no_sample_unbounded (k : nat) : (2 <= k)%nat -> unbounded (sampled_lp k []).
Proof.
  intros Hk b. replace k with (2 + (k - 2))%nat by lia.
  exists (pad [0; b + 1] (k - 2)). split.
  - apply feasible_pad; [lia|].
    apply feasible_sampled_lp; [lia|]. split; [reflexivity|constructor].
  - rewrite objective_value_pad, objective_value_sampled_lp. cbn [nth]. lra.
Qed.

(** With the zero vector feasible, a problem is not infeasible and its value
    is at least the zero vector's objective. *)
Lemma lp_value_nonneg (k : nat) (x : ndarray) (v : pyfloat) :
  (1 < k)%nat -> lp_value (sampled_lp k x) v -> pyfloat_le (Finite 0) v.
Proof.
  intros Hk Hv. assert (Hz : feasible (sampled_lp k x) (zeros k))
    by (apply zeros_feasible; lia).
  destruct Hv as [c q [Hfeas Hmax] Hq | Hunb | Hinf]; cbn.
  - rewrite Hq. specialize (Hmax _ Hz).
    rewrite objective_value_sampled_lp, nth_zeros in Hmax. exact Hmax.
  - exact I.
  - exact (Hinf _ Hz).
Qed.

(* ================================================================= *)
(** ** The call as a whole *)

Section Call.

Context {G : Type} {gen : BitGenerator G} {solver : LPSolver} {cvx : Cvxpy}.

(** The call is its build followed by lines 54-59. *)
Lemma solve_degree_n_after_build (n : Z) (ns : pynumber) (verbose : bool)
      (w w1 : world G) (fr : locals) :
  solve_degree_n_build n ns w = (Ok fr, w1) ->
  solve_degree_n n ns verbose w
  = match lp_solve (l_problem fr) with
    | Ok sol => (Ok (value_of sol),
                 {| rng := rng w1; stdout := stdout w1 ++ report verbose sol |})
    | Raise e => (Raise e, w1)
    end.
Proof.
  unfold solve_degree_n, solve_degree_n_build, bind, lift, ret.
  destruct (cp_Variable (n + 1)) as [C|e]; [|discriminate].
  destruct (np_random_uniform (-1) 1 ns w) as [[x|e] w2]; [|discriminate].
  destruct (pol_calc C x) as [pol_x|e]; [|discriminate].
  destruct (py_iter pol_x) as [items|e]; [|discriminate].
  destruct (getitem C 1) as [c1|e]; [|discriminate].
  intros [= <- <-]. cbn [l_problem]. unfold problem_solve, lift.
  destruct (lp_solve _) as [sol|e]; [|reflexivity].
  destruct verbose; cbn.
  - now rewrite <- app_assoc.
  - rewrite app_nil_r. now destruct w2.
Qed.

(** A build that raises is the call raising, at the same point. *)
Lemma solve_degree_n_build_raises (n : Z) (ns : pynumber) (verbose : bool)
      (w w1 : world G) (e : exn) :
  solve_degree_n_build n ns w = (Raise e, w1) ->
  solve_degree_n n ns verbose w = (Raise e, w1).
Proof.
  unfold solve_degree_n, solve_degree_n_build, bind, lift, ret.
  destruct (cp_Variable (n + 1)) as [C|e0]; [|now intros [= <- <-]].
  destruct (np_random_uniform (-1) 1 ns w) as [[x|e0] w2];
    [|now intros [= <- <-]].
  destruct (pol_calc C x) as [pol_x|e0]; [|now intros [= <- <-]].
  destruct (py_iter pol_x) as [items|e0]; [|now intros [= <- <-]].
  destruct (getitem C 1) as [c1|e0]; [discriminate|now intros [= <- <-]].
Qed.

(** Whatever happens after lines 48-53, the generator is where they left
    it. *)
Lemma solve_degree_n_rng_build (n : Z) (ns : pynumber) (verbose : bool)
      (w : world G) :
  rng (snd (solve_degree_n n ns verbose w))
  = rng (snd (solve_degree_n_build n ns w)).
Proof.
  destruct (solve_degree_n_build n ns w) as [[fr|e] w1] eqn:Hb.
  - rewrite (solve_degree_n_after_build _ _ verbose _ _ _ Hb).
    now destruct (lp_solve (l_problem fr)).
  - now rewrite (solve_degree_n_build_raises _ _ verbose _ _ _ Hb).
Qed.

(** From degree 0 on, whatever happens after line 49, the generator has
    moved by exactly the doubles that line drew. *)
Lemma solve_degree_n_rng (n m : Z) (verbose : bool) (w : world G) :
  (0 <= n)%Z -> (0 <= m)%Z ->
  rng (snd (solve_degree_n n (PInt m) verbose w))
  = snd (random_sample (Z.to_nat m) (rng w)).
Proof.
  intros Hn Hm. rewrite solve_degree_n_rng_build, solve_degree_n_build_rng.
  now rewrite valid_dim_pos by lia.
Qed.

End Call.

Lemma entry_polynomial (c : ndarray) (k : nat) (x : ndarray) (j : nat) :
  (0 < k)%nat -> (j < length x)%nat ->
  entry (eval c (polynomial k x)) j = psum c (nth j x 0) k.
Proof.
  intros Hk Hj. rewrite (eval_polynomial c k x Hk). cbn [entry].
  rewrite (nth_indep _ 0 (psum c 0 k)) by now rewrite length_map.
  apply (map_nth (fun v => psum c v k)).
Qed.

Lemma nth_iterate_polynomial (k : nat) (x : ndarray) (j : nat) (d : Expression) :
  (0 < k)%nat -> (j < length x)%nat ->
  nth j (iterate (polynomial k x)) d = index (polynomial k x) j.
Proof.
  intros Hk Hj. rewrite (iterate_polynomial k x Hk). unfold range.
  rewrite (nth_indep _ d (index (polynomial k x) 0))
    by now rewrite length_map, length_seq.
  rewrite (map_nth (index (polynomial k x))). now rewrite seq_nth.
Qed.

Lemma sampled_constraints_length (k : nat) (x : ndarray) :
  (0 < k)%nat -> length (sampled_constraints k x) = (2 * length x)%nat.
Proof.
  intros Hk. unfold sampled_constraints.
  rewrite length_app, !length_map, (iterate_polynomial k x Hk).
  unfold range. rewrite length_map, length_seq. lia.
Qed.

(* ================================================================= *)
(** ** Properties of [pol_calc] and of the problem that is built *)

(** C3: applied to the unknown vector of size [n + 1] and an array of
    points, [pol_calc] returns an expression with one entry per point; at
    every coefficient vector [c] the entry for the point [x_j] is
    [c_0 * x_j^0 + ... + c_n * x_j^n], and it is linear in [c]. *)
Theorem pol_calc_polynomial_sum {cvx : Cvxpy} (n : nat) (x : ndarray) :
  x <> [] ->
  exists pol_x,
    pol_calc (Var (n + 1)) x = Ok pol_x /\
    shape pol_x = Vec (length x) /\
    length (iterate pol_x) = length x /\
    (forall c j, (j < length x)%nat ->
       entry (eval c pol_x) j = psum c (nth j x 0) (n + 1)) /\
    (forall a b c c' j, (j < length x)%nat -> length c = length c' ->
       entry (eval (lincomb a c b c') pol_x) j
       == a * entry (eval c pol_x) j + b * entry (eval c' pol_x) j).
Proof.
  intros Hx. exists (polynomial (n + 1) x).
  assert (Hk : (0 < n + 1)%nat) by lia.
  split; [apply pol_calc_Var, valid_dim_nonempty, Hx|].
  split; [unfold polynomial; rewrite shape_partial_sum;
          now replace (n + 1)%nat with (S n) by lia|].
  split; [rewrite (iterate_polynomial _ x Hk); unfold range;
          now rewrite length_map, length_seq|].
  split.
  - intros c j Hj. now apply entry_polynomial.
  - intros a b c c' j Hj Hlen.
    rewrite !entry_polynomial by assumption. now apply psum_lincomb.
Qed.

Section Properties.

Context {G : Type} {gen : BitGenerator G} {solver : LPSolver} {cvx : Cvxpy}.

Local Open Scope py_scope.

Lemma module_init_run (w : world G) :
  module_init w = (Ok tt, {| rng := seed_state 1234; stdout := stdout w |}).
Proof. reflexivity. Qed.

(** C2, for degrees from 1 on: the build succeeds and its problem has the
    one unknown vector of [n + 1] coefficients, [2 * m] constraints (the
    [m] sampled evaluations bounded below by -1, then the same [m]
    bounded above by 1) and the objective of maximising [c_1]. *)
Theorem solve_degree_n_build_sampled_lp (n m : Z) (w : world G) :
  (1 <= n)%Z -> (1 <= m)%Z ->
  exists fr w',
    solve_degree_n_build n (PInt m) w = (Ok fr, w') /\
    l_C fr = Var (Z.to_nat (n + 1)) /\
    variables (l_problem fr) = [Z.to_nat (n + 1)] /\
    Z.of_nat (length (l_x fr)) = m /\
    Z.of_nat (length (constraints (l_problem fr))) = (2 * m)%Z /\
    constraints (l_problem fr)
    = map (fun e => ge e (-1)) (iterate (l_pol_x fr))
      ++ map (fun e => le e 1) (iterate (l_pol_x fr)) /\
    length (iterate (l_pol_x fr)) = length (l_x fr) /\
    (forall j c, (j < length (l_x fr))%nat ->
       let e := nth j (iterate (l_pol_x fr)) (Constant (Scalar 0)) in
       let v := psum c (nth j (l_x fr) 0) (Z.to_nat (n + 1)) in
       (holds c (ge e (-1)) <-> -1 <= v) /\ (holds c (le e 1) <-> v <= 1)) /\
    objective (l_problem fr) = Maximize (index (l_C fr) 1) /\
    (forall c, objective_value (l_problem fr) c = nth 1 c 0).
Proof.
  intros Hn Hm. eexists. eexists.
  split; [apply solve_degree_n_build_ok; assumption|].
  set (k := Z.to_nat (n + 1)). set (x := sample_points (Z.to_nat m) w).
  assert (Hk : (0 < k)%nat) by (unfold k; lia).
  assert (Hlen : length x = Z.to_nat m) by apply sample_points_length.
  cbn [sampled_locals l_C l_x l_pol_x l_problem].
  split; [reflexivity|].
  split; [apply variables_sampled_lp|].
  split; [rewrite Hlen; lia|].
  split; [cbn [sampled_lp constraints];
          rewrite (sampled_constraints_length k x Hk), Hlen; lia|].
  split; [reflexivity|].
  split; [rewrite (iterate_polynomial k x Hk); unfold range;
          now rewrite length_map, length_seq|].
  split; [|split; [reflexivity|intros c; reflexivity]].
  intros j c Hj. cbn zeta.
  rewrite (nth_iterate_polynomial _ _ _ _ Hk Hj).
  cbn [holds ge le eval nd_le]. rewrite (entry_polynomial c _ _ _ Hk Hj).
  split; reflexivity.
Qed.

(** C1, as the code has it: for a degree of at least 1 and at least one
    sample the call returns [C.value] alone, an array or [None] as the
    solver left it, never a tuple; the status and the objective value are
    printed when [verbose] is set and are not returned.  If the solver
    raises, so does the call. *)
Theorem solve_degree_n_returns_C_value (n m : Z) (verbose : bool) (w : world G) :
  (1 <= n)%Z -> (1 <= m)%Z ->
  exists fr w1,
    solve_degree_n_build n (PInt m) w = (Ok fr, w1) /\
    stdout w1 = stdout w /\
    match lp_solve (l_problem fr) with
    | Ok sol =>
        solve_degree_n n (PInt m) verbose w
        = (Ok (value_of sol),
           {| rng := rng w1; stdout := stdout w ++ report verbose sol |}) /\
        is_array_or_none (value_of sol) = true
    | Raise e => solve_degree_n n (PInt m) verbose w = (Raise e, w1)
    end.
Proof.
  intros Hn Hm.
  pose proof (solve_degree_n_build_ok n m w Hn Hm) as Hb.
  eexists. eexists. split; [exact Hb|]. split; [reflexivity|].
  rewrite (solve_degree_n_after_build _ _ verbose _ _ _ Hb).
  destruct (lp_solve _) as [sol|e]; [|reflexivity].
  split; [reflexivity|]. unfold value_of. now destruct (primal_vars sol).
Qed.

(** C4 at the default: [n_sample=1e4] is a float, which
    [np.random.uniform] refuses, so a call that leaves [n_sample] out
    raises (TypeError once [C] exists) and draws nothing. *)
Theorem solve_degree_n_default_raises (n : Z) (verbose : bool) (w : world G) :
  solve_degree_n n n_sample_default verbose w
  = (Raise (if valid_dim (n + 1) then TypeError else ValueError), w).
Proof.
  unfold solve_degree_n, bind, lift, cp_Variable.
  destruct (valid_dim (n + 1)); reflexivity.
Qed.

(** C5: the build's problem is satisfied by the all-zero coefficient
    vector, whatever the points; so no sound solve reports "infeasible",
    and the value of the problem is at least 0. *)
Theorem zero_vector_feasible (n m : Z) (w : world G) :
  (1 <= n)%Z -> (1 <= m)%Z ->
  exists fr w1,
    solve_degree_n_build n (PInt m) w = (Ok fr, w1) /\
    Forall (holds (zeros (Z.to_nat (n + 1)))) (constraints (l_problem fr)) /\
    feasible (l_problem fr) (zeros (Z.to_nat (n + 1))) /\
    (forall sol, sound (l_problem fr) sol -> status sol <> "infeasible"%string) /\
    (forall v, lp_value (l_problem fr) v -> pyfloat_le (Finite 0) v).
Proof.
  intros Hn Hm. eexists. eexists.
  split; [apply solve_degree_n_build_ok; assumption|].
  cbn [sampled_locals l_problem].
  set (k := Z.to_nat (n + 1)). set (x := sample_points (Z.to_nat m) w).
  assert (Hk : (1 < k)%nat) by (unfold k; lia).
  assert (Hz : feasible (sampled_lp k x) (zeros k))
    by (apply zeros_feasible; lia).
  split; [apply Hz|]. split; [exact Hz|]. split.
  - intros sol (_ & Hinf & _) Hst. destruct (Hinf Hst) as (Hno & _).
    exact (Hno _ Hz).
  - intros v. now apply lp_value_nonneg.
Qed.

(** C6, as the code has it: of two fresh runs for the same degree, the
    one with more samples draws the other's points and more, so the
    value it achieves is at most the other's (not at least). *)
Theorem more_samples_lower_value (n m1 m2 : Z) (w1 w2 : world G)
        (v1 v2 : pyfloat) :
  (m1 <= m2)%Z ->
  achieved n m1 w1 v1 -> achieved n m2 w2 v2 ->
  pyfloat_le v2 v1.
Proof.
  intros Hle (fr1 & wa & Hb1 & Hv1) (fr2 & wb & Hb2 & Hv2).
  unfold bind in Hb1, Hb2. rewrite module_init_run in Hb1, Hb2.
  destruct (solve_degree_n_build_inv _ _ _ _ _ Hb1)
    as (m & [= <-] & Hn & Hm1 & -> & _).
  destruct (solve_degree_n_build_inv _ _ _ _ _ Hb2)
    as (m' & [= <-] & _ & Hm2 & -> & _).
  cbn [sampled_locals l_problem] in Hv1, Hv2.
  eapply (lp_value_fewer_samples (Z.to_nat (n + 1)));
    [lia| |exact Hv1|exact Hv2].
  unfold sample_points. cbn [rng].
  replace (Z.to_nat m2) with (Z.to_nat m1 + (Z.to_nat m2 - Z.to_nat m1))%nat
    by lia.
  rewrite random_sample_add. cbn [fst]. unfold to_interval.
  rewrite map_app. apply incl_appl, incl_refl.
Qed.

(** C7: from one and the same generator state, the builds for degree [n]
    and degree [n + 2] sample the same points, and the value of the
    second problem is at least the value of the first: a feasible
    coefficient vector padded with two zeros stays feasible. *)
Theorem degree_plus_2_no_lower_value (n m : Z) (w : world G) :
  (1 <= n)%Z -> (1 <= m)%Z ->
  exists fr fr' w1,
    solve_degree_n_build n (PInt m) w = (Ok fr, w1) /\
    solve_degree_n_build (n + 2) (PInt m) w = (Ok fr', w1) /\
    l_x fr = l_x fr' /\
    (forall c, feasible (l_problem fr) c ->
       feasible (l_problem fr') (pad c 2) /\
       objective_value (l_problem fr') (pad c 2)
       = objective_value (l_problem fr) c) /\
    (forall v v', lp_value (l_problem fr) v -> lp_value (l_problem fr') v' ->
       pyfloat_le v v').
Proof.
  intros Hn Hm. eexists. eexists. eexists.
  split; [apply solve_degree_n_build_ok; assumption|].
  split; [apply solve_degree_n_build_ok; lia|].
  cbn [sampled_locals l_x l_problem].
  replace (Z.to_nat (n + 2 + 1)) with (Z.to_nat (n + 1) + 2)%nat by lia.
  split; [reflexivity|]. split.
  - intros c Hc. split; [apply feasible_pad; [lia|exact Hc]|].
    apply objective_value_pad.
  - intros v v'. apply lp_value_higher_degree. lia.
Qed.

(** C8: a fresh run does not depend on the state the generator had
    before the first cell seeded it: for the same arguments two runs build
    from the same sample points and end with the same result, output and
    generator state. *)
Theorem fresh_runs_agree (g g' : G) (out : list pyobj)
        (n : Z) (ns : pynumber) (verbose : bool) :
  (module_init ;; solve_degree_n_build n ns) {| rng := g; stdout := out |}
  = (module_init ;; solve_degree_n_build n ns) {| rng := g'; stdout := out |}
  /\ fresh_run n ns verbose {| rng := g; stdout := out |}
     = fresh_run n ns verbose {| rng := g'; stdout := out |}.
Proof.
  unfold fresh_run, bind. rewrite !module_init_run. cbn [stdout].
  split; reflexivity.
Qed.

(** C9, as the code has it: [solve_degree_n] checks nothing itself, so a
    negative degree or a sample count of zero fails only where a library
    refuses it.  A degree below -1 raises ValueError at [cp.Variable] on
    every release, with nothing drawn.  Where a zero dimension is refused,
    degree -1 and a sample count of zero raise ValueError as well and leave
    the process as it was.  Where it is accepted, degree -1 draws the
    samples and then raises TypeError, and a sample count of zero raises
    IndexError at degree 0 and from degree 1 on hands the problem without
    constraints to the solver and returns its [C.value]: no error at all. *)
Theorem malformed_input_outcome (n m : Z) (verbose : bool) (w : world G) :
  (n < 0)%Z \/ m = 0%Z -> (0 <= m)%Z ->
  let call := solve_degree_n n (PInt m) verbose w in
  ((n < -1)%Z -> call = (Raise ValueError, w)) /\
  (accepts_zero_dim = false -> call = (Raise ValueError, w)) /\
  (accepts_zero_dim = true -> n = (-1)%Z ->
   call = (Raise TypeError, after_sampling (Z.to_nat m) w)) /\
  (accepts_zero_dim = true -> n = 0%Z -> call = (Raise IndexError, w)) /\
  (accepts_zero_dim = true -> (1 <= n)%Z ->
   call = match lp_solve (sampled_lp (Z.to_nat (n + 1)) []) with
          | Ok sol =>
              (Ok (value_of sol),
               {| rng := rng w; stdout := stdout w ++ report verbose sol |})
          | Raise e => (Raise e, w)
          end).
Proof.
  intros H Hm call. subst call.
  pose proof (solve_degree_n_build_cases n (PInt m) w) as Hb.
  cbv beta iota in Hb.
  replace (m <? 0)%Z with false in Hb by (symmetry; apply Z.ltb_ge; lia).
  split; [|split; [|split; [|split]]].
  - intros Hn. rewrite valid_dim_neg in Hb by lia.
    exact (solve_degree_n_build_raises _ _ verbose _ _ _ Hb).
  - intros Hz. apply solve_degree_n_build_raises. rewrite Hb.
    destruct (valid_dim (n + 1)) eqn:Hv; [|reflexivity].
    destruct (valid_dim_true _ Hv) as [Hk | [_ Hk]]; [|congruence].
    destruct H as [H | ->]; [lia|].
    replace (n =? -1)%Z with false by (symmetry; apply Z.eqb_neq; lia).
    rewrite valid_dim_0, Hz. cbn [Z.to_nat]. now rewrite after_sampling_0.
  - intros Hz ->. apply solve_degree_n_build_raises. rewrite Hb.
    change (-1 + 1)%Z with 0%Z. change (-1 =? -1)%Z with true.
    now rewrite valid_dim_0, Hz.
  - intros Hz ->. destruct H as [H | ->]; [lia|].
    apply solve_degree_n_build_raises. rewrite Hb.
    rewrite valid_dim_pos by lia. rewrite valid_dim_0, Hz.
    cbn [Z.eqb Z.to_nat]. now rewrite after_sampling_0.
  - intros Hz Hn. destruct H as [H | ->]; [lia|].
    rewrite valid_dim_pos in Hb by lia. rewrite valid_dim_0, Hz in Hb.
    replace (n =? -1)%Z with false in Hb by (symmetry; apply Z.eqb_neq; lia).
    replace (n =? 0)%Z with false in Hb by (symmetry; apply Z.eqb_neq; lia).
    rewrite (solve_degree_n_after_build _ _ verbose _ _ _ Hb).
    cbn [sampled_locals l_problem Z.to_nat].
    change (sample_points 0 w) with (@nil Q).
    destruct (lp_solve _); [reflexivity|now rewrite after_sampling_0].
Qed.

End Properties.

(* ================================================================= *)
(** ** Degree 1 in closed form *)

Lemma psum_2 (c : ndarray) (v : Q) :
  psum c v 2 == nth 0 c 0 + nth 1 c 0 * v.
Proof.
  cbn [psum]. change (v ^ Z.of_nat 0) with 1. change (v ^ Z.of_nat 1) with v.
  ring.
Qed.

(** For degree 1 the problem is solved by the line that takes the values
    -1 and 1 at the least and the greatest sample point. *)
Lemma degree_1_optimum (x : ndarray) (lo hi : Q) :
  In lo x -> In hi x -> lo < hi ->
  Forall (fun v => lo <= v <= hi) x ->
  optimal (sampled_lp 2 x) (line_through lo hi).
Proof.
  intros Hlo Hhi Hlt Hx.
  assert (Hd : 0 < hi - lo) by lra.
  assert (Hd' : ~ hi - lo == 0) by lra.
  split.
  - apply feasible_sampled_lp; [lia|]. split; [reflexivity|].
    eapply Forall_impl; [|exact Hx]. cbn beta. intros v Hv.
    rewrite psum_2. cbn [line_through nth].
    setoid_replace (- (lo + hi) / (hi - lo) + 2 / (hi - lo) * v)
      with ((2 * v - lo - hi) / (hi - lo)) by (field; exact Hd').
    split.
    + apply Qle_shift_div_l; [exact Hd|lra].
    + apply Qle_shift_div_r; [exact Hd|lra].
  - intros c' Hc'. rewrite !objective_value_sampled_lp. cbn [line_through nth].
    apply feasible_sampled_lp in Hc'; [|lia]. destruct Hc' as (_ & Hb).
    rewrite Forall_forall in Hb.
    pose proof (Hb lo Hlo) as [Hl _]. pose proof (Hb hi Hhi) as [_ Hh].
    rewrite psum_2 in Hl, Hh.
    apply Qle_shift_div_l; [exact Hd|]. lra.
Qed.

(** With two sample points, both different from 0, a cubic can vanish at
    both and have any slope at 0: degree 3 is unbounded. *)
Lemma degree_3_two_points_unbounded (p q : Q) :
  ~ p == 0 -> ~ q == 0 -> unbounded (sampled_lp 4 [p; q]).
Proof.
  intros Hp Hq b.
  set (s := (b + 1) / (p * q)).
  exists [0; b + 1; - (s * (p + q)); s]. split.
  - apply feasible_sampled_lp; [lia|]. split; [reflexivity|].
    assert (Hz : forall v, v == p \/ v == q ->
                 psum [0; b + 1; - (s * (p + q)); s] v 4 == 0).
    { intros v Hv. cbn [psum nth].
      change (v ^ Z.of_nat 0) with 1. change (v ^ Z.of_nat 1) with v.
      change (v ^ Z.of_nat 2) with (v * v).
      change (v ^ Z.of_nat 3) with (v * (v * v)).
      unfold s. destruct Hv as [-> | ->]; field; split; assumption. }
    assert (Hb : forall v, v == p \/ v == q ->
                 -1 <= psum [0; b + 1; - (s * (p + q)); s] v 4 <= 1)
      by (intros v Hv; rewrite (Hz v Hv); lra).
    constructor; [apply Hb; left; reflexivity|].
    constructor; [apply Hb; right; reflexivity|constructor].
  - rewrite objective_value_sampled_lp. cbn [nth]. lra.
Qed.

(* ================================================================= *)
(** ** The stream of doubles behind successive calls *)

Section Stream.

Context {G : Type} {gen : BitGenerator G}.

Lemma nth_double_S (i : nat) (g : G) :
  nth_double (S i) g = nth_double i (snd (next_double g)).
Proof.
  unfold nth_double. cbn [random_sample].
  destruct (next_double g) as [d g1]. cbn [snd].
  now destruct (random_sample i g1).
Qed.

Lemma distinct_from_spec (d0 : Q) (count : nat) (g : G) :
  distinct_from d0 count g = true ->
  forall i, (i < count)%nat -> ~ nth_double i g == d0.
Proof.
  revert g. induction count as [|k IH]; intros g H i Hi; [lia|].
  cbn [distinct_from] in H. destruct i as [|i].
  - unfold nth_double. cbn [random_sample snd].
    destruct (next_double g) as [d g1]. cbn [fst].
    apply andb_true_iff in H. destruct H as [H _].
    apply negb_true_iff in H. intros Heq.
    apply Qeq_bool_iff in Heq. congruence.
  - rewrite nth_double_S. destruct (next_double g) as [d g1]. cbn [snd].
    apply andb_true_iff in H. destruct H as [_ H].
    apply (IH g1 H). lia.
Qed.

Lemma sample_points_head (m : nat) (w : world G) :
  (0 < m)%nat ->
  nth 0 (sample_points m w) 0 = -1 + (1 - -1) * nth_double 0 (rng w).
Proof.
  intros Hm. unfold sample_points, nth_double. cbn [random_sample snd].
  destruct m as [|m]; [lia|]. cbn [random_sample].
  destruct (next_double (rng w)) as [d g1].
  now destruct (random_sample m g1).
Qed.

Lemma nth_random_sample (m i : nat) (g : G) :
  (i < m)%nat -> nth i (fst (random_sample m g)) 0 = nth_double i g.
Proof.
  revert i g. induction m as [|m IH]; intros i g Hi; [lia|].
  destruct i as [|i].
  - unfold nth_double. cbn [random_sample snd].
    destruct (next_double g) as [d g1]. now destruct (random_sample m g1).
  - rewrite nth_double_S. specialize (IH i (snd (next_double g)) ltac:(lia)).
    cbn [random_sample]. destruct (next_double g) as [d g1]. cbn [snd] in IH.
    now destruct (random_sample m g1).
Qed.

(** Entry [i] of a sample array is made of double [i] of the stream. *)
Lemma nth_sample_points (m i : nat) (w : world G) :
  (i < m)%nat ->
  nth i (sample_points m w) 0 = -1 + (1 - -1) * nth_double i (rng w).
Proof.
  intros Hi. unfold sample_points, to_interval.
  rewrite (nth_indep _ 0 (-1 + (1 - -1) * 0))
    by now rewrite length_map, random_sample_length.
  rewrite (map_nth (fun d => -1 + (1 - -1) * d)).
  now rewrite nth_random_sample.
Qed.

Lemma sample_points_add (a b : nat) (w : world G) :
  sample_points (a + b) w
  = sample_points a w ++ sample_points b (after_sampling a w).
Proof.
  unfold sample_points, after_sampling. cbn [rng].
  rewrite random_sample_add. cbn [fst]. apply map_app.
Qed.

Lemma nth_double_after (a i : nat) (g : G) :
  nth_double i (snd (random_sample a g)) = nth_double (a + i) g.
Proof.
  unfold nth_double. now rewrite (random_sample_add a i g).
Qed.

End Stream.

(* ================================================================= *)
(** ** The notebook on NumPy's generator: concrete runs *)

Lemma sample_points_loaded_4 : sample_points 4 loaded = [pt0; pt1; pt2; pt3].
Proof. vm_compute. reflexivity. Qed.

Lemma sample_points_loaded_2 : sample_points 2 loaded = [pt0; pt1].
Proof. vm_compute. reflexivity. Qed.

Lemma module_init_imported : module_init imported = (Ok tt, loaded).
Proof. reflexivity. Qed.

Lemma first_double_not_repeated :
  distinct_from (nth_double 0 (MT19937.mt19937_seed 1234)) (Z.to_nat 10000)
                (snd (next_double (MT19937.mt19937_seed 1234))) = true.
Proof. vm_compute. reflexivity. Qed.

Lemma optimal_2 : optimal (sampled_lp 2 [pt0; pt1]) (line_through pt0 pt1).
Proof.
  apply degree_1_optimum.
  - now left.
  - right. now left.
  - reflexivity.
  - repeat constructor; discriminate.
Qed.

Lemma optimal_4 :
  optimal (sampled_lp 2 [pt0; pt1; pt2; pt3]) (line_through pt0 pt3).
Proof.
  apply degree_1_optimum.
  - now left.
  - do 3 right. now left.
  - reflexivity.
  - repeat constructor; discriminate.
Qed.

Lemma sound_optimum_2 : sound (sampled_lp 2 [pt0; pt1]) optimum_2.
Proof.
  split; [|split; discriminate].
  intros _. exists (line_through pt0 pt1), (2 / (pt1 - pt0)).
  split; [reflexivity|]. split; [exact optimal_2|].
  split; reflexivity.
Qed.

Lemma build_loaded_2 {cvx : Cvxpy} :
  solve_degree_n_build 1 (PInt 2) loaded
  = (Ok (sampled_locals 2 [pt0; pt1]), after_sampling 2 loaded).
Proof.
  rewrite solve_degree_n_build_ok by lia.
  change (Z.to_nat 2) with 2%nat. now rewrite sample_points_loaded_2.
Qed.

Lemma build_loaded_4 {cvx : Cvxpy} :
  solve_degree_n_build 1 (PInt 4) loaded
  = (Ok (sampled_locals 2 [pt0; pt1; pt2; pt3]), after_sampling 4 loaded).
Proof.
  rewrite solve_degree_n_build_ok by lia.
  change (Z.to_nat 4) with 4%nat. now rewrite sample_points_loaded_4.
Qed.

Lemma achieved_1_2 {cvx : Cvxpy} : achieved 1 2 imported (Finite (2 / (pt1 - pt0))).
Proof.
  exists (sampled_locals 2 [pt0; pt1]), (after_sampling 2 loaded). split.
  - unfold bind. rewrite module_init_imported. exact build_loaded_2.
  - eapply lp_value_optimal; [exact optimal_2|reflexivity].
Qed.

Lemma achieved_1_4 {cvx : Cvxpy} : achieved 1 4 imported (Finite (2 / (pt3 - pt0))).
Proof.
  exists (sampled_locals 2 [pt0; pt1; pt2; pt3]), (after_sampling 4 loaded). split.
  - unfold bind. rewrite module_init_imported. exact build_loaded_4.
  - eapply lp_value_optimal; [exact optimal_4|reflexivity].
Qed.

(** Degree 0 never gets as far as a problem: [C] has the single entry
    [C[0]], so [C[1]] raises IndexError once the constraints are built. *)
Lemma degree_0_raises_IndexError {G : Type} {gen : BitGenerator G}
      {cvx : Cvxpy} (m : Z) (w : world G) :
  (1 <= m)%Z ->
  solve_degree_n_build 0 (PInt m) w
  = (Raise IndexError, after_sampling (Z.to_nat m) w).
Proof.
  intros Hm. rewrite solve_degree_n_build_cases.
  rewrite !valid_dim_pos by lia.
  now replace (m <? 0)%Z with false by (symmetry; apply Z.ltb_ge; lia).
Qed.

(* ================================================================= *)
(** ** Counterexamples and instances *)

(** C1, counterexample: in a fresh process, degree 1 with two samples and
    the true optimum as the solver's answer, the call returns the
    coefficient array itself, not a triple; the status and the objective
    value went to standard output. *)
Lemma solve_degree_n_returns_no_triple :
  exists a,
    @fresh_run _ mt19937 (answering optimum_2)
        accepting_zero_dim 1 (PInt 2) true imported
    = (Ok (PyArray a),
       {| rng := snd (random_sample 2 (MT19937.mt19937_seed 1234));
          stdout := [PyStr "optimal"; PyFloat (Finite (2 / (pt1 - pt0)))] |})
    /\ a = line_through pt0 pt1
    /\ forall st v, PyArray a <> PyTuple [PyArray a; st; v].
Proof.
  exists (line_through pt0 pt1). split; [|split; [reflexivity|discriminate]].
  unfold fresh_run, bind. rewrite module_init_imported.
  rewrite (solve_degree_n_after_build _ _ _ _ _ _ build_loaded_2).
  reflexivity.
Qed.

(** The theorem for C1 at degree 1 and two samples, with the optimum as the
    solver's answer. *)
Lemma solve_degree_n_returns_C_value_witness :
  (1 <= 1)%Z /\ (1 <= 2)%Z /\
  fst (@solve_degree_n _ mt19937 (answering optimum_2)
      accepting_zero_dim 1 (PInt 2) true loaded)
  = Ok (PyArray (line_through pt0 pt1)).
Proof.
  split; [lia|]. split; [lia|].
  destruct (@solve_degree_n_returns_C_value _ mt19937 (answering optimum_2)
      accepting_zero_dim
              1 2 true loaded ltac:(lia) ltac:(lia))
    as (fr & w1 & _ & _ & H).
  cbn [lp_solve answering] in H. destruct H as [H _]. rewrite H. reflexivity.
Defined.

(** C2, counterexample: for degree 0 and one sample the build ends in
    IndexError, and so does the call: no problem is constructed. *)
Lemma degree_0_builds_no_problem :
  fst (@solve_degree_n_build _ mt19937
      accepting_zero_dim 0 (PInt 1) loaded) = Raise IndexError
  /\ fst (@solve_degree_n _ mt19937 (answering optimum_2)
      accepting_zero_dim 0 (PInt 1) true loaded)
     = Raise IndexError.
Proof.
  pose proof (@degree_0_raises_IndexError _ mt19937
      accepting_zero_dim 1 loaded ltac:(lia)) as H.
  split; [now rewrite H|].
  now rewrite (solve_degree_n_build_raises _ _ _ _ _ _ H).
Qed.

(** The theorem for C2 at degree 1 and two samples: two unknowns, four
    constraints. *)
Lemma solve_degree_n_build_sampled_lp_witness :
  (1 <= 1)%Z /\ (1 <= 2)%Z /\
  exists fr w',
    @solve_degree_n_build _ mt19937
        accepting_zero_dim 1 (PInt 2) loaded = (Ok fr, w') /\
    variables (l_problem fr) = [2%nat] /\
    length (constraints (l_problem fr)) = 4%nat.
Proof.
  split; [lia|]. split; [lia|].
  destruct (@solve_degree_n_build_sampled_lp _ mt19937 accepting_zero_dim 1 2 loaded
              ltac:(lia) ltac:(lia))
    as (fr & w' & Hb & _ & Hvars & _ & Hcons & _).
  exists fr, w'. split; [exact Hb|]. split; [exact Hvars|]. lia.
Defined.

(** The theorem for C3 at degree 1 on the points 1/2 and -1/2: the
    polynomial [0 + 1 * x] takes the value -1/2 at the second point. *)
Lemma pol_calc_polynomial_sum_witness :
  [1 # 2; -1 # 2] <> [] /\
  exists pol_x,
    @pol_calc accepting_zero_dim (Var 2) [1 # 2; -1 # 2] = Ok pol_x /\
    entry (eval [0; 1] pol_x) 1 == -1 # 2.
Proof.
  assert (Hx : [1 # 2; -1 # 2] <> []) by discriminate.
  split; [exact Hx|].
  destruct (@pol_calc_polynomial_sum accepting_zero_dim 1 [1 # 2; -1 # 2] Hx)
    as (pol_x & Hp & _ & _ & He & _).
  exists pol_x. split; [exact Hp|].
  rewrite (He [0; 1] 1%nat) by (cbn; lia). reflexivity.
Defined.

(** The theorem for C5 at degree 1 and two samples, with the optimum as a
    sound solve. *)
Lemma zero_vector_feasible_witness :
  (1 <= 1)%Z /\ (1 <= 2)%Z /\
  exists fr w1,
    @solve_degree_n_build _ mt19937
        accepting_zero_dim 1 (PInt 2) loaded = (Ok fr, w1) /\
    feasible (l_problem fr) (zeros 2) /\
    sound (l_problem fr) optimum_2 /\
    status optimum_2 <> "infeasible"%string /\
    pyfloat_le (Finite 0) (opt_val optimum_2).
Proof.
  split; [lia|]. split; [lia|].
  destruct (@zero_vector_feasible _ mt19937
      accepting_zero_dim 1 2 loaded ltac:(lia) ltac:(lia))
    as (fr & w1 & Hb & _ & Hz & Hst & Hval).
  exists fr, w1. split; [exact Hb|].
  rewrite build_loaded_2 in Hb. injection Hb as <- <-.
  cbn [sampled_locals l_problem] in *.
  split; [exact Hz|]. split; [exact sound_optimum_2|].
  split; [exact (Hst _ sound_optimum_2)|].
  apply Hval. eapply lp_value_optimal; [exact optimal_2|reflexivity].
Defined.

(** C6, counterexample: fresh runs at degree 1 achieve 2 / (pt1 - pt0)
    (about 2.32) with two samples and 2 / (pt3 - pt0) (about 1.68) with
    four: the value went down as the sample count went up. *)
Lemma more_samples_value_drops :
  exists v1 v2,
    (2 <= 4)%Z /\
    @achieved _ mt19937 accepting_zero_dim 1 2 imported (Finite v1) /\
    @achieved _ mt19937 accepting_zero_dim 1 4 imported (Finite v2) /\
    v2 < v1 /\
    ~ pyfloat_le (Finite v1) (Finite v2).
Proof.
  exists (2 / (pt1 - pt0)), (2 / (pt3 - pt0)).
  assert (Hlt : 2 / (pt3 - pt0) < 2 / (pt1 - pt0)) by reflexivity.
  split; [lia|]. split; [exact achieved_1_2|]. split; [exact achieved_1_4|].
  split; [exact Hlt|]. cbn. now apply Qlt_not_le.
Qed.

(** The theorem for C6 on the runs of the counterexample: from two to four
    samples the value falls from 2 / (pt1 - pt0) to 2 / (pt3 - pt0). *)
Lemma more_samples_lower_value_witness :
  (2 <= 4)%Z /\
  @achieved _ mt19937 accepting_zero_dim 1 2 imported (Finite (2 / (pt1 - pt0))) /\
  @achieved _ mt19937 accepting_zero_dim 1 4 imported (Finite (2 / (pt3 - pt0))) /\
  pyfloat_le (Finite (2 / (pt3 - pt0))) (Finite (2 / (pt1 - pt0))).
Proof.
  split; [lia|]. split; [exact achieved_1_2|]. split; [exact achieved_1_4|].
  exact (@more_samples_lower_value _ mt19937 accepting_zero_dim
           1 2 4 imported imported _ _ ltac:(lia) achieved_1_2 achieved_1_4).
Defined.

(** The theorem for C7 at degree 1 and two samples: the value is finite at
    degree 1 and unbounded at degree 3. *)
Lemma degree_plus_2_no_lower_value_witness :
  (1 <= 1)%Z /\ (1 <= 2)%Z /\
  lp_value (sampled_lp 2 [pt0; pt1]) (Finite (2 / (pt1 - pt0))) /\
  lp_value (sampled_lp 4 [pt0; pt1]) PosInf /\
  pyfloat_le (Finite (2 / (pt1 - pt0))) PosInf.
Proof.
  split; [lia|]. split; [lia|].
  assert (H2 : lp_value (sampled_lp 2 [pt0; pt1]) (Finite (2 / (pt1 - pt0))))
    by (eapply lp_value_optimal; [exact optimal_2|reflexivity]).
  assert (H4 : lp_value (sampled_lp 4 [pt0; pt1]) PosInf)
    by (apply lp_value_unbounded, degree_3_two_points_unbounded; discriminate).
  split; [exact H2|]. split; [exact H4|].
  destruct (@degree_plus_2_no_lower_value _ mt19937 accepting_zero_dim 1 2 loaded
              ltac:(lia) ltac:(lia))
    as (fr & fr' & w1 & Hb & Hb' & _ & _ & Hle).
  rewrite build_loaded_2 in Hb. injection Hb as <- _.
  rewrite solve_degree_n_build_ok in Hb' by lia.
  change (Z.to_nat 2) with 2%nat in Hb'. rewrite sample_points_loaded_2 in Hb'.
  injection Hb' as <-.
  exact (Hle _ _ H2 H4).
Defined.

(** C9, counterexample: on a release that accepts a zero dimension, degree
    3 with a sample count of zero raises nothing: the problem without
    constraints goes to the solver, whose sound answer is "unbounded", and
    the call prints that and returns [None]; degree -1 with two samples
    draws the two points before it raises, and what it raises is
    TypeError. *)
Lemma zero_samples_returns_None :
  @solve_degree_n _ mt19937 (answering unbounded_answer) accepting_zero_dim
    3 (PInt 0) true loaded
  = (Ok PyNone,
     {| rng := rng loaded; stdout := [PyStr "unbounded"; PyFloat PosInf] |})
  /\ sound (sampled_lp 4 []) unbounded_answer
  /\ @solve_degree_n _ mt19937 (answering unbounded_answer) accepting_zero_dim
       (-1) (PInt 2) true loaded
     = (Raise TypeError, after_sampling 2 loaded)
  /\ sample_points 2 loaded = [pt0; pt1].
Proof.
  split; [|split; [|split]].
  - erewrite solve_degree_n_after_build
      by (rewrite solve_degree_n_build_cases; reflexivity).
    reflexivity.
  - split; [discriminate|]. split; [discriminate|].
    intros _. split; [apply no_sample_unbounded; lia|]. split; reflexivity.
  - apply solve_degree_n_build_raises.
    rewrite solve_degree_n_build_cases. reflexivity.
  - exact sample_points_loaded_2.
Qed.

(** The theorem for C9 at degree 3 with no sample, where a zero dimension
    is accepted and where it is refused, and at degree -1 where it is
    refused. *)
Lemma malformed_input_outcome_witness :
  ((3 < 0)%Z \/ 0%Z = 0%Z) /\ (0 <= 0)%Z /\
  ((-1 < 0)%Z \/ 5000%Z = 0%Z) /\ (0 <= 5000)%Z /\
  @solve_degree_n _ mt19937 (answering unbounded_answer) accepting_zero_dim
    3 (PInt 0) false loaded
  = (Ok PyNone, loaded) /\
  @solve_degree_n _ mt19937 (answering unbounded_answer) refusing_zero_dim
    3 (PInt 0) false loaded
  = (Raise ValueError, loaded) /\
  @solve_degree_n _ mt19937 (answering unbounded_answer) refusing_zero_dim
    (-1) (PInt 5000) true loaded
  = (Raise ValueError, loaded).
Proof.
  assert (H1 : (3 < 0)%Z \/ 0%Z = 0%Z) by (right; reflexivity).
  assert (H2 : (0 <= 0)%Z) by lia.
  assert (H3 : (-1 < 0)%Z \/ 5000%Z = 0%Z) by (left; lia).
  assert (H4 : (0 <= 5000)%Z) by lia.
  split; [exact H1|]. split; [exact H2|]. split; [exact H3|]. split; [exact H4|].
  split; [|split].
  - destruct (@malformed_input_outcome _ mt19937 (answering unbounded_answer)
                accepting_zero_dim 3 0 false loaded H1 H2)
      as (_ & _ & _ & _ & H).
    exact (H eq_refl ltac:(lia)).
  - destruct (@malformed_input_outcome _ mt19937 (answering unbounded_answer)
                refusing_zero_dim 3 0 false loaded H1 H2)
      as (_ & H & _).
    exact (H eq_refl).
  - destruct (@malformed_input_outcome _ mt19937 (answering unbounded_answer)
                refusing_zero_dim (-1) 5000 true loaded H3 H4)
      as (_ & H & _).
    exact (H eq_refl).
Defined.

(* ================================================================= *)
(** ** Two calls in one process *)

(** C10: in a process that loaded the first cell, a call of degree 0 or
    more with at least one sample leaves the generator where its sampling
    stopped, and the same call made again draws the block of the stream
    that follows: the generator is seeded once, by the first cell, and
    moves by [m] doubles with every call; the two arrays together are the
    first [2 * m] points after seeding, and from degree 1 on the two
    problems are built from them.  The two arrays can be equal only if the
    stream repeats itself from double [m] on over a whole block.  The
    stream of MT19937 is periodic, so that cannot be excluded for every
    [m] at once; it is excluded here, by running the generator, for every
    [m] up to 10000, the sample count the function was written for. *)
Theorem second_call_draws_next_block (solver : LPSolver) (cvx : Cvxpy)
        (n m : Z) (verbose : bool) (w0 : world MT19937.state) :
  (0 <= n)%Z -> (1 <= m)%Z ->
  let wa := snd (module_init w0) in
  let wb := snd (solve_degree_n n (PInt m) verbose wa) in
  let wc := snd (solve_degree_n n (PInt m) verbose wb) in
  exists x1 x2,
    fst (solve_degree_n_sample n (PInt m) wa) = Ok x1 /\
    fst (solve_degree_n_sample n (PInt m) wb) = Ok x2 /\
    rng wa = MT19937.mt19937_seed 1234 /\
    rng wb = snd (random_sample (Z.to_nat m) (rng wa)) /\
    rng wc = snd (random_sample (Z.to_nat m + Z.to_nat m) (rng wa)) /\
    x1 ++ x2 = sample_points (Z.to_nat m + Z.to_nat m) wa /\
    ((1 <= n)%Z ->
     exists fr1 fr2 w1 w2,
       solve_degree_n_build n (PInt m) wa = (Ok fr1, w1) /\
       solve_degree_n_build n (PInt m) wb = (Ok fr2, w2) /\
       l_x fr1 = x1 /\ l_x fr2 = x2) /\
    (x1 = x2 ->
     forall i, (i < Z.to_nat m)%nat ->
       nth_double (Z.to_nat m + i) (rng wa) == nth_double i (rng wa)) /\
    ((m <= 10000)%Z -> x1 <> x2).
Proof.
  intros Hn Hm wa wb wc.
  assert (Hwa : rng wa = MT19937.mt19937_seed 1234) by reflexivity.
  assert (Hwb : rng wb = snd (random_sample (Z.to_nat m) (rng wa)))
    by (apply solve_degree_n_rng; lia).
  assert (Hwc : rng wc = snd (random_sample (Z.to_nat m + Z.to_nat m) (rng wa))).
  { unfold wc. rewrite solve_degree_n_rng by lia. fold wb. rewrite Hwb.
    now rewrite (random_sample_add (Z.to_nat m) (Z.to_nat m)). }
  assert (Hx : sample_points (Z.to_nat m) wb
               = sample_points (Z.to_nat m) (after_sampling (Z.to_nat m) wa))
    by (unfold sample_points; now rewrite Hwb).
  assert (Hrep : sample_points (Z.to_nat m) wa = sample_points (Z.to_nat m) wb ->
                 forall i, (i < Z.to_nat m)%nat ->
                   nth_double (Z.to_nat m + i) (rng wa) == nth_double i (rng wa)).
  { intros Heq i Hi. apply (f_equal (fun l => nth i l 0)) in Heq.
    rewrite !nth_sample_points in Heq by exact Hi.
    rewrite Hwb, nth_double_after in Heq.
    assert (Hq : -1 + (1 - -1) * nth_double i (rng wa)
                 == -1 + (1 - -1) * nth_double (Z.to_nat m + i) (rng wa))
      by (rewrite Heq; reflexivity).
    lra. }
  exists (sample_points (Z.to_nat m) wa), (sample_points (Z.to_nat m) wb).
  assert (Hv : valid_dim (n + 1) = true) by (apply valid_dim_pos; lia).
  split; [now rewrite solve_degree_n_sample_int by (exact Hv || lia)|].
  split; [now rewrite solve_degree_n_sample_int by (exact Hv || lia)|].
  split; [exact Hwa|]. split; [exact Hwb|]. split; [exact Hwc|].
  split; [now rewrite Hx, sample_points_add|].
  split; [|split; [exact Hrep|]].
  - intros Hn1.
    exists (sampled_locals (Z.to_nat (n + 1)) (sample_points (Z.to_nat m) wa)),
           (sampled_locals (Z.to_nat (n + 1)) (sample_points (Z.to_nat m) wb)),
           (after_sampling (Z.to_nat m) wa), (after_sampling (Z.to_nat m) wb).
    split; [apply solve_degree_n_build_ok; lia|].
    split; [apply solve_degree_n_build_ok; lia|].
    split; reflexivity.
  - intros Hle Heq. specialize (Hrep Heq 0%nat ltac:(lia)).
    rewrite Nat.add_0_r, Hwa in Hrep.
    replace (Z.to_nat m) with (S (Z.to_nat m - 1)) in Hrep by lia.
    rewrite nth_double_S in Hrep.
    apply (distinct_from_spec _ _ _ first_double_not_repeated
                              (Z.to_nat m - 1)%nat); [lia|exact Hrep].
Qed.

(** The theorem for C10 at two samples: at degree 1 the first call builds
    from the points pt0, pt1 and the second from pt2, pt3; at degree 0 both
    calls raise IndexError, and the second has drawn pt2, pt3 all the
    same. *)
Lemma second_call_draws_next_block_witness :
  (0 <= 1)%Z /\ (0 <= 0)%Z /\ (1 <= 2)%Z /\
  (exists x1 x2,
     fst (@solve_degree_n_sample _ mt19937 accepting_zero_dim 1 (PInt 2) loaded)
     = Ok x1 /\
     fst (@solve_degree_n_sample _ mt19937 accepting_zero_dim 1 (PInt 2)
            (snd (@solve_degree_n _ mt19937 (answering optimum_2)
                    accepting_zero_dim 1 (PInt 2) false loaded)))
     = Ok x2 /\
     x1 = [pt0; pt1] /\ x2 = [pt2; pt3] /\ x1 <> x2) /\
  (exists x1 x2,
     fst (@solve_degree_n _ mt19937 (answering optimum_2) accepting_zero_dim
            0 (PInt 2) false loaded)
     = Raise IndexError /\
     fst (@solve_degree_n_sample _ mt19937 accepting_zero_dim 0 (PInt 2) loaded)
     = Ok x1 /\
     fst (@solve_degree_n_sample _ mt19937 accepting_zero_dim 0 (PInt 2)
            (snd (@solve_degree_n _ mt19937 (answering optimum_2)
                    accepting_zero_dim 0 (PInt 2) false loaded)))
     = Ok x2 /\
     x1 = [pt0; pt1] /\ x2 = [pt2; pt3] /\ x1 <> x2).
Proof.
  split; [lia|]. split; [lia|]. split; [lia|].
  assert (Hsplit : forall x1 x2 : ndarray,
            x1 = [pt0; pt1] -> x1 ++ x2 = [pt0; pt1; pt2; pt3] ->
            x2 = [pt2; pt3])
    by (intros x1 x2 -> H; now injection H).
  split.
  - destruct (second_call_draws_next_block (answering optimum_2)
                accepting_zero_dim 1 2 false imported ltac:(lia) ltac:(lia))
      as (x1 & x2 & Hs1 & Hs2 & _ & _ & _ & Happ & _ & _ & Hne).
    change (snd (module_init imported)) with loaded in *.
    exists x1, x2. split; [exact Hs1|]. split; [exact Hs2|].
    assert (H1 : x1 = [pt0; pt1]).
    { rewrite solve_degree_n_sample_int in Hs1 by (reflexivity || lia).
      injection Hs1 as <-. exact sample_points_loaded_2. }
    change (Z.to_nat 2 + Z.to_nat 2)%nat with 4%nat in Happ.
    rewrite sample_points_loaded_4 in Happ.
    split; [exact H1|]. split; [exact (Hsplit _ _ H1 Happ)|].
    apply Hne. lia.
  - destruct (second_call_draws_next_block (answering optimum_2)
                accepting_zero_dim 0 2 false imported ltac:(lia) ltac:(lia))
      as (x1 & x2 & Hs1 & Hs2 & _ & _ & _ & Happ & _ & _ & Hne).
    change (snd (module_init imported)) with loaded in *.
    exists x1, x2.
    split; [now rewrite (solve_degree_n_build_raises _ _ _ _ _ _
                           (degree_0_raises_IndexError 2 loaded ltac:(lia)))|].
    split; [exact Hs1|]. split; [exact Hs2|].
    assert (H1 : x1 = [pt0; pt1]).
    { rewrite solve_degree_n_sample_int in Hs1 by (reflexivity || lia).
      injection Hs1 as <-. exact sample_points_loaded_2. }
    change (Z.to_nat 2 + Z.to_nat 2)%nat with 4%nat in Happ.
    rewrite sample_points_loaded_4 in Happ.
    split; [exact H1|]. split; [exact (Hsplit _ _ H1 Happ)|].
    apply Hne. lia.
Defined.

(* ================================================================= *)
(** ** Every input: which exception, and what a call leaves behind *)

Section Outcome.

Context {G : Type} {gen : BitGenerator G} {solver : LPSolver} {cvx : Cvxpy}.

(** X1: the outcome of a call on every input, on either kind of CVXPY
    release.  Nothing is checked by the function; the libraries object in
    this order: [cp.Variable] to a dimension [n + 1] it does not accept
    (ValueError); [np.random.uniform] to a float sample count (TypeError)
    and to a negative one (ValueError), all three before anything is
    drawn; for degree -1, where it gets this far, the loop over the int 0
    that [sum] returned (TypeError, after the draw); the first product to
    an empty array, where a zero dimension is refused (ValueError);
    [C[1]] at degree 0 (IndexError, after the draw).  Otherwise the solver
    is called on the sampled problem, and the call returns its [C.value]
    or raises what it raises. *)
Theorem solve_degree_n_outcome (n : Z) (ns : pynumber) (verbose : bool)
        (w : world G) :
  solve_degree_n n ns verbose w
  = if valid_dim (n + 1) then
      match ns with
      | PFloat _ => (Raise TypeError, w)
      | PInt m =>
          if (m <? 0)%Z then (Raise ValueError, w)
          else if (n =? -1)%Z
               then (Raise TypeError, after_sampling (Z.to_nat m) w)
               else if valid_dim m then
                      if (n =? 0)%Z
                      then (Raise IndexError, after_sampling (Z.to_nat m) w)
                      else match lp_solve (sampled_lp (Z.to_nat (n + 1))
                                             (sample_points (Z.to_nat m) w)) with
                           | Ok sol =>
                               (Ok (value_of sol),
                                {| rng := snd (random_sample (Z.to_nat m) (rng w));
                                   stdout := stdout w ++ report verbose sol |})
                           | Raise e => (Raise e, after_sampling (Z.to_nat m) w)
                           end
                    else (Raise ValueError, w)
      end
    else (Raise ValueError, w).
Proof.
  pose proof (solve_degree_n_build_cases n ns w) as Hb.
  destruct (valid_dim (n + 1));
    [|exact (solve_degree_n_build_raises _ _ verbose _ _ _ Hb)].
  destruct ns as [m|f];
    [|exact (solve_degree_n_build_raises _ _ verbose _ _ _ Hb)].
  destruct (m <? 0)%Z eqn:Hm;
    [exact (solve_degree_n_build_raises _ _ verbose _ _ _ Hb)|].
  apply Z.ltb_ge in Hm.
  destruct (n =? -1)%Z;
    [exact (solve_degree_n_build_raises _ _ verbose _ _ _ Hb)|].
  destruct (valid_dim m) eqn:Hvm.
  - destruct (n =? 0)%Z;
      [exact (solve_degree_n_build_raises _ _ verbose _ _ _ Hb)|].
    rewrite (solve_degree_n_after_build _ _ verbose _ _ _ Hb).
    reflexivity.
  - destruct (valid_dim_false _ Hvm) as [H | [-> _]]; [lia|].
    rewrite (solve_degree_n_build_raises _ _ verbose _ _ _ Hb).
    cbn [Z.to_nat]. now rewrite after_sampling_0.
Qed.


(** X3: the generator moves by exactly the [n_sample] doubles of line 49 when
    that line is reached with an integer, that is when [cp.Variable]
    accepted the dimension [n + 1] (every degree from 0 on, and degree -1
    where a zero dimension is accepted), also when the call fails later
    (degree -1 or 0, or the solver raising); it does not move otherwise. *)
Theorem solve_degree_n_advances_generator (n : Z) (ns : pynumber)
        (verbose : bool) (w : world G) :
  rng (snd (solve_degree_n n ns verbose w))
  = match ns with
    | PFloat _ => rng w
    | PInt m =>
        if valid_dim (n + 1)
        then snd (random_sample (Z.to_nat m) (rng w))
        else rng w
    end.
Proof.
  rewrite <- solve_degree_n_build_rng.
  destruct (solve_degree_n_build n ns w) as [[fr|e] w1] eqn:Hb.
  - rewrite (solve_degree_n_after_build _ _ verbose _ _ _ Hb).
    now destruct (lp_solve (l_problem fr)).
  - now rewrite (solve_degree_n_build_raises _ _ verbose _ _ _ Hb).
Qed.

End Outcome.

(* ================================================================= *)
(** ** The sample points and the value of the sampled problem *)

Lemma psum_at_zero (c : ndarray) (v : Q) (k : nat) :
  v == 0 -> (0 < k)%nat -> psum c v k == nth 0 c 0.
Proof.
  intros Hv Hk. induction k as [|k IH]; [lia|].
  cbn [psum]. destruct k as [|k].
  - cbn [psum]. change (v ^ Z.of_nat 0) with 1. ring.
  - rewrite IH by lia. rewrite Hv, Qpower_0 by lia. ring.
Qed.

Lemma bound_below_1 (l : ndarray) :
  Forall (fun v => -1 <= v < 1) l ->
  exists hi, -1 <= hi < 1 /\ Forall (fun v => -1 <= v <= hi) l.
Proof.
  induction 1 as [|v l Hv Hl (hi & Hhi & IH)].
  - exists (-1). split; [lra|constructor].
  - destruct (Qlt_le_dec hi v) as [Hlt | Hge].
    + exists v. split; [exact Hv|]. constructor; [lra|].
      eapply Forall_impl; [|exact IH]. cbn beta. intros u Hu. lra.
    + exists hi. split; [exact Hhi|]. constructor; [lra|exact IH].
Qed.

(** A line of slope [(3 - hi) / 2 > 1] that stays within [-1, 1] on
    [-1, hi], for any [hi < 1]. *)
Lemma steep_line_feasible (x : ndarray) (hi : Q) :
  -1 <= hi < 1 ->
  Forall (fun v => -1 <= v <= hi) x ->
  feasible (sampled_lp 2 x) [1 - (3 - hi) * (1 # 2) * hi; (3 - hi) * (1 # 2)]
  /\ 1 < (3 - hi) * (1 # 2).
Proof.
  intros Hhi Hx. split; [|lra].
  apply feasible_sampled_lp; [lia|]. split; [reflexivity|].
  eapply Forall_impl; [|exact Hx]. cbn beta. intros v Hv.
  rewrite psum_2. cbn [nth].
  setoid_replace (1 - (3 - hi) * (1 # 2) * hi + (3 - hi) * (1 # 2) * v)
    with (1 - (3 - hi) * (hi - v) * (1 # 2)) by ring.
  assert (H1 : 0 <= (3 - hi) * (hi - v))
    by (apply Qmult_le_0_compat; lra).
  assert (H2 : (3 - hi) * (hi - v) <= (3 - hi) * (hi + 1))
    by (apply Qmult_le_l; lra).
  assert (H3 : 0 <= (1 - hi) * (1 - hi))
    by (apply Qmult_le_0_compat; lra).
  assert (H4 : (3 - hi) * (hi + 1) == 4 - (1 - hi) * (1 - hi)) by ring.
  lra.
Qed.

(** With a single sample point the objective is unbounded at every degree
    from 1 on: a line through that point of value 0 may be as steep as one
    likes. *)
Lemma one_point_unbounded (k : nat) (v : Q) :
  (2 <= k)%nat -> unbounded (sampled_lp k [v]).
Proof.
  intros Hk b. replace k with (2 + (k - 2))%nat by lia.
  exists (pad [- ((b + 1) * v); b + 1] (k - 2)). split.
  - apply feasible_pad; [lia|].
    apply feasible_sampled_lp; [lia|]. split; [reflexivity|].
    constructor; [|constructor]. rewrite psum_2. cbn [nth].
    setoid_replace (- ((b + 1) * v) + (b + 1) * v) with 0 by ring. lra.
  - rewrite objective_value_pad, objective_value_sampled_lp. cbn [nth]. lra.
Qed.

Lemma unbounded_not_optimal (p : Problem) (c : ndarray) :
  unbounded p -> ~ optimal p c.
Proof.
  intros Hunb [_ Hmax]. destruct (Hunb (objective_value p c)) as (c' & Hc' & Hlt).
  specialize (Hmax c' Hc'). lra.
Qed.

(** Over points in [-1, 1) some feasible coefficient vector has a slope
    above 1 at the origin, at every degree from 1 on. *)
Lemma steep_feasible_point (k : nat) (x : ndarray) :
  (2 <= k)%nat -> Forall (fun v => -1 <= v < 1) x ->
  exists c, feasible (sampled_lp k x) c /\ 1 < objective_value (sampled_lp k x) c.
Proof.
  intros Hk Hx. destruct (bound_below_1 x Hx) as (hi & Hhi & Hb).
  destruct (steep_line_feasible x hi Hhi Hb) as [Hfeas Hs].
  replace k with (2 + (k - 2))%nat by lia.
  exists (pad [1 - (3 - hi) * (1 # 2) * hi; (3 - hi) * (1 # 2)] (k - 2)).
  split; [apply feasible_pad; [lia|exact Hfeas]|].
  rewrite objective_value_pad. exact Hs.
Qed.

Section SampledValue.

Context {G : Type} {gen : BitGenerator G} {cvx : Cvxpy}.

(** X4: the points a call builds from lie in the half-open interval [-1, 1):
    -1 can occur, 1 cannot. *)
Theorem sample_points_half_open (n m : Z) (w : world G) :
  (1 <= n)%Z -> (1 <= m)%Z ->
  exists fr w1,
    solve_degree_n_build n (PInt m) w = (Ok fr, w1) /\
    Z.of_nat (length (l_x fr)) = m /\
    Forall (fun v => -1 <= v < 1) (l_x fr).
Proof.
  intros Hn Hm. eexists. eexists.
  split; [apply solve_degree_n_build_ok; assumption|].
  cbn [sampled_locals l_x]. split.
  - rewrite sample_points_length. lia.
  - apply to_interval_range, random_sample_unit.
Qed.

(** X5: from one generator state, a call with more samples builds from the
    points of the call with fewer samples, followed by further ones. *)
Theorem sample_points_prefix (n m1 m2 : Z) (w : world G) :
  (1 <= n)%Z -> (1 <= m1 <= m2)%Z ->
  exists fr1 fr2 w1 w2,
    solve_degree_n_build n (PInt m1) w = (Ok fr1, w1) /\
    solve_degree_n_build n (PInt m2) w = (Ok fr2, w2) /\
    firstn (Z.to_nat m1) (l_x fr2) = l_x fr1 /\
    l_x fr2 = l_x fr1 ++ skipn (Z.to_nat m1) (l_x fr2).
Proof.
  intros Hn Hm. eexists. eexists. eexists. eexists.
  split; [apply solve_degree_n_build_ok; lia|].
  split; [apply solve_degree_n_build_ok; lia|].
  cbn [sampled_locals l_x].
  replace (Z.to_nat m2) with (Z.to_nat m1 + (Z.to_nat m2 - Z.to_nat m1))%nat
    by lia.
  rewrite sample_points_add.
  assert (Hlen : length (sample_points (Z.to_nat m1) w) = Z.to_nat m1)
    by apply sample_points_length.
  split.
  - rewrite firstn_app, Hlen, Nat.sub_diag, firstn_O, app_nil_r.
    apply firstn_all2. lia.
  - rewrite skipn_app, Hlen, Nat.sub_diag, skipn_O.
    rewrite (skipn_all2 (sample_points (Z.to_nat m1) w)) by lia.
    reflexivity.
Qed.

(** X6: with one sample the problem of every degree from 1 on is unbounded:
    it has no optimal point, its value is [inf], and no sound solve is
    "optimal". *)
Theorem one_sample_unbounded (n : Z) (w : world G) :
  (1 <= n)%Z ->
  exists fr w1,
    solve_degree_n_build n (PInt 1) w = (Ok fr, w1) /\
    unbounded (l_problem fr) /\
    lp_value (l_problem fr) PosInf /\
    (forall c, ~ optimal (l_problem fr) c) /\
    (forall sol, sound (l_problem fr) sol -> status sol <> "optimal"%string).
Proof.
  intros Hn. eexists. eexists.
  split; [apply solve_degree_n_build_ok; lia|].
  cbn [sampled_locals l_problem]. change (Z.to_nat 1) with 1%nat.
  pose proof (sample_points_length 1 w) as Hlen.
  destruct (sample_points 1 w) as [|v [|v' x]]; try discriminate.
  assert (Hunb : unbounded (sampled_lp (Z.to_nat (n + 1)) [v]))
    by (apply one_point_unbounded; lia).
  split; [exact Hunb|]. split; [now apply lp_value_unbounded|].
  split; [intros c; now apply unbounded_not_optimal|].
  intros sol (Hopt & _) Hst. destruct (Hopt Hst) as (c & _ & _ & Hc & _).
  exact (unbounded_not_optimal _ c Hunb Hc).
Qed.

(** X7: the sampled problem is a relaxation: since no sample point is 1, some
    feasible polynomial has a slope above 1 at the origin, so a finite
    value of the problem is always greater than 1, at every degree from 1
    on and for every sample count. *)
Theorem sampled_value_above_1 (n m : Z) (w : world G) :
  (1 <= n)%Z -> (1 <= m)%Z ->
  exists fr w1,
    solve_degree_n_build n (PInt m) w = (Ok fr, w1) /\
    (exists c, feasible (l_problem fr) c /\ 1 < objective_value (l_problem fr) c) /\
    (forall v, lp_value (l_problem fr) (Finite v) -> 1 < v).
Proof.
  intros Hn Hm. eexists. eexists.
  split; [apply solve_degree_n_build_ok; assumption|].
  cbn [sampled_locals l_problem].
  set (x := sample_points (Z.to_nat m) w).
  assert (Hx : Forall (fun v => -1 <= v < 1) x)
    by apply to_interval_range, random_sample_unit.
  destruct (steep_feasible_point (Z.to_nat (n + 1)) x) as (c & Hc & Hs);
    [lia|exact Hx|].
  split; [now exists c|].
  intros v Hv. inversion Hv as [c' v' [_ Hmax] Hv' | |]; subst.
  specialize (Hmax _ Hc). rewrite Hv'. lra.
Qed.

(** X8: for degree 1 the problem is solved in closed form: with [lo] the least
    and [hi] the greatest sample point, [lo < hi], an optimal polynomial is
    the line through [(lo, -1)] and [(hi, 1)], and the value is
    [2 / (hi - lo)]. *)
Theorem degree_1_value (m : Z) (w : world G) :
  (1 <= m)%Z ->
  exists fr w1,
    solve_degree_n_build 1 (PInt m) w = (Ok fr, w1) /\
    forall lo hi,
      In lo (l_x fr) -> In hi (l_x fr) -> lo < hi ->
      Forall (fun v => lo <= v <= hi) (l_x fr) ->
      optimal (l_problem fr) (line_through lo hi) /\
      objective_value (l_problem fr) (line_through lo hi) == 2 / (hi - lo) /\
      lp_value (l_problem fr) (Finite (2 / (hi - lo))).
Proof.
  intros Hm. eexists. eexists.
  split; [apply solve_degree_n_build_ok; lia|].
  cbn [sampled_locals l_problem l_x]. change (Z.to_nat (1 + 1)) with 2%nat.
  intros lo hi Hlo Hhi Hlt Hb.
  pose proof (degree_1_optimum _ lo hi Hlo Hhi Hlt Hb) as Hopt.
  split; [exact Hopt|]. split; [reflexivity|].
  eapply lp_value_optimal; [exact Hopt|reflexivity].
Qed.

End SampledValue.

(** X9: at a sample point that is 0 the evaluated polynomial is the constant
    coefficient: [x**0] is 1 there too, and every other power vanishes. *)
Theorem pol_calc_at_zero {cvx : Cvxpy} (n : nat) (x c : ndarray) (j : nat) :
  x <> [] -> (j < length x)%nat -> nth j x 0 == 0 ->
  exists pol_x,
    pol_calc (Var (n + 1)) x = Ok pol_x /\
    entry (eval c pol_x) j == nth 0 c 0.
Proof.
  intros Hx Hj Hz. exists (polynomial (n + 1) x).
  split; [apply pol_calc_Var, valid_dim_nonempty, Hx|].
  rewrite entry_polynomial by (assumption || lia).
  apply psum_at_zero; [exact Hz|lia].
Qed.

(* ================================================================= *)
(** ** The loop over the degrees *)

Lemma py_range_1_9 : py_range 1 9 = [1; 2; 3; 4; 5; 6; 7; 8]%Z.
Proof. reflexivity. Qed.

Lemma nth_py_range_1_9 (k : nat) :
  (k < 8)%nat -> nth k (py_range 1 9) 0%Z = (Z.of_nat k + 1)%Z.
Proof.
  intros Hk. rewrite py_range_1_9.
  do 8 (destruct k as [|k]; [reflexivity|]). lia.
Qed.

Section DemoLoop.

Context {G : Type} {gen : BitGenerator G} {solver : LPSolver} {cvx : Cvxpy}.

Lemma sample_block_0 (m : nat) (w : world G) :
  sample_block m 0 w = sample_points m w.
Proof. reflexivity. Qed.

Lemma sample_block_S (m k : nat) (w w1 : world G) :
  rng w1 = snd (random_sample m (rng w)) ->
  sample_block m k w1 = sample_block m (S k) w.
Proof.
  intros Hrng. unfold sample_block, sample_points, after_sampling. cbn [rng].
  rewrite Hrng. change (S k * m)%nat with (m + k * m)%nat.
  now rewrite (random_sample_add m (k * m)).
Qed.

(** One round of the loop, for a degree of at least 1. *)
Lemma demo_body_run (n : Z) (w : world G) :
  (1 <= n)%Z ->
  demo_body n w
  = match lp_solve (sampled_lp (Z.to_nat (n + 1))
                               (sample_points (Z.to_nat demo_n_sample) w)) with
    | Ok sol =>
        (Ok tt,
         {| rng := snd (random_sample (Z.to_nat demo_n_sample) (rng w));
            stdout := stdout w ++ [demo_label n; value_of sol] |})
    | Raise e => (Raise e, after_sampling (Z.to_nat demo_n_sample) w)
    end.
Proof.
  intros Hn. unfold demo_body, bind.
  assert (Hm : (1 <= demo_n_sample)%Z) by (unfold demo_n_sample; lia).
  rewrite (solve_degree_n_after_build _ _ false _ _ _
             (solve_degree_n_build_ok n demo_n_sample w Hn Hm)).
  cbn [sampled_locals l_problem].
  destruct (lp_solve _) as [sol|e]; [|reflexivity].
  unfold print. cbn [rng stdout after_sampling report].
  now rewrite app_nil_r, <- app_assoc.
Qed.

(** The loop over any degrees from 1 on, when every solve returns. *)
Lemma for_in_demo_ok (degrees : list Z) (w : world G) :
  Forall (fun n => (1 <= n)%Z) degrees ->
  (forall p, exists s, lp_solve p = Ok s) ->
  exists printed,
    for_in degrees demo_body w
    = (Ok tt,
       {| rng := snd (random_sample (length degrees * Z.to_nat demo_n_sample)
                                    (rng w));
          stdout := stdout w ++ printed |}) /\
    length printed = (2 * length degrees)%nat /\
    forall k, (k < length degrees)%nat ->
      nth (2 * k) printed PyNone = demo_label (nth k degrees 0%Z) /\
      exists sol,
        lp_solve (sampled_lp (Z.to_nat (nth k degrees 0%Z + 1))
                             (sample_block (Z.to_nat demo_n_sample) k w))
        = Ok sol /\
        nth (2 * k + 1) printed PyNone = value_of sol.
Proof.
  intros Hdeg Htot. revert w.
  induction Hdeg as [|n rest Hn Hrest IH]; intros w.
  - exists []. cbn. rewrite app_nil_r. split; [now destruct w|].
    split; [reflexivity|]. intros k Hk. lia.
  - cbn [for_in]. unfold bind. rewrite (demo_body_run n w Hn).
    destruct (Htot (sampled_lp (Z.to_nat (n + 1))
                      (sample_points (Z.to_nat demo_n_sample) w)))
      as [sol Hsol].
    rewrite Hsol.
    set (w1 := {| rng := snd (random_sample (Z.to_nat demo_n_sample) (rng w));
                  stdout := stdout w ++ [demo_label n; value_of sol] |}).
    destruct (IH w1) as (printed & Hrun & Hlen & Hnth).
    exists ([demo_label n; value_of sol] ++ printed). split.
    { rewrite Hrun. cbn [rng stdout w1 length].
      change (S (length rest) * Z.to_nat demo_n_sample)%nat
        with (Z.to_nat demo_n_sample + length rest * Z.to_nat demo_n_sample)%nat.
      rewrite (random_sample_add (Z.to_nat demo_n_sample)). cbn [snd].
      now rewrite <- app_assoc. }
    split; [cbn [length app]; rewrite Hlen; lia|].
    intros [|k] Hk.
    + split; [reflexivity|]. exists sol. split; [|reflexivity].
      rewrite sample_block_0. exact Hsol.
    + cbn [length] in Hk. destruct (Hnth k ltac:(lia)) as (Hlab & s & Hs & Hval).
      replace (2 * S k)%nat with (S (S (2 * k))) by lia.
      replace (S (S (2 * k)) + 1)%nat with (S (S (2 * k + 1))) by lia.
      cbn [app nth]. split; [exact Hlab|]. exists s. split; [|exact Hval].
      rewrite <- (sample_block_S _ k w w1) by reflexivity. exact Hs.
Qed.


(** X10: when every solve returns, the loop prints sixteen objects: for each
    degree from 1 to 8 in turn the label ["For degree: n:"] and then the
    [C.value] of that degree's solve.  Each degree is solved on a block of
    5000 sample points of its own, the blocks following one another in the
    generator's stream, which ends 40000 doubles further on. *)
Theorem demo_prints_each_degree (w : world G) :
  (forall p, exists s, lp_solve p = Ok s) ->
  exists printed w',
    demo w = (Ok tt, w') /\
    stdout w' = stdout w ++ printed /\
    rng w' = snd (random_sample (8 * Z.to_nat demo_n_sample) (rng w)) /\
    length printed = 16%nat /\
    forall k, (k < 8)%nat ->
      nth (2 * k) printed PyNone = demo_label (Z.of_nat k + 1) /\
      exists sol,
        lp_solve (sampled_lp (k + 2)
                             (sample_block (Z.to_nat demo_n_sample) k w))
        = Ok sol /\
        nth (2 * k + 1) printed PyNone = value_of sol.
Proof.
  intros Htot.
  assert (Hdeg : Forall (fun n => (1 <= n)%Z) (py_range 1 9))
    by (rewrite py_range_1_9; repeat constructor; lia).
  destruct (for_in_demo_ok (py_range 1 9) w Hdeg Htot)
    as (printed & Hrun & Hlen & Hnth).
  exists printed. eexists. split; [exact Hrun|].
  cbn [stdout rng]. split; [reflexivity|]. split; [reflexivity|].
  split; [exact Hlen|]. intros k Hk.
  destruct (Hnth k Hk) as (Hlab & sol & Hsol & Hval).
  rewrite (nth_py_range_1_9 k Hk) in Hlab, Hsol.
  replace (Z.to_nat (Z.of_nat k + 1 + 1)) with (k + 2)%nat in Hsol by lia.
  split; [exact Hlab|]. exists sol. split; [exact Hsol|exact Hval].
Qed.


End DemoLoop.

(* ================================================================= *)
(** ** What a sound solve makes the call return *)

Section Returned.

Context {G : Type} {gen : BitGenerator G} {solver : LPSolver} {cvx : Cvxpy}.


End Returned.

(* ================================================================= *)
(** ** Instances of the properties above on NumPy's generator *)

(** The first two points after seeding lie in [-1, 1). *)
Lemma sample_points_half_open_witness :
  (1 <= 1)%Z /\ (1 <= 2)%Z /\
  exists fr w1,
    @solve_degree_n_build _ mt19937
        accepting_zero_dim 1 (PInt 2) loaded = (Ok fr, w1) /\
    l_x fr = [pt0; pt1] /\
    Forall (fun v => -1 <= v < 1) [pt0; pt1].
Proof.
  split; [lia|]. split; [lia|].
  destruct (@sample_points_half_open _ mt19937
      accepting_zero_dim 1 2 loaded ltac:(lia) ltac:(lia))
    as (fr & w1 & Hb & _ & Hrange).
  exists fr, w1. split; [exact Hb|].
  rewrite build_loaded_2 in Hb. injection Hb as <- _.
  split; [reflexivity|exact Hrange].
Defined.

(** Four samples after seeding start with the two that two samples give. *)
Lemma sample_points_prefix_witness :
  (1 <= 1)%Z /\ (1 <= 2 <= 4)%Z /\
  exists fr1 fr2 w1 w2,
    @solve_degree_n_build _ mt19937
        accepting_zero_dim 1 (PInt 2) loaded = (Ok fr1, w1) /\
    @solve_degree_n_build _ mt19937
        accepting_zero_dim 1 (PInt 4) loaded = (Ok fr2, w2) /\
    l_x fr2 = [pt0; pt1; pt2; pt3] /\
    firstn 2 (l_x fr2) = l_x fr1.
Proof.
  split; [lia|]. split; [lia|].
  destruct (@sample_points_prefix _ mt19937
      accepting_zero_dim 1 2 4 loaded ltac:(lia) ltac:(lia))
    as (fr1 & fr2 & w1 & w2 & Hb1 & Hb2 & Hfirst & _).
  exists fr1, fr2, w1, w2. split; [exact Hb1|]. split; [exact Hb2|].
  split; [|exact Hfirst].
  rewrite build_loaded_4 in Hb2. now injection Hb2 as <- _.
Defined.

(** Degree 3 on the single first point: the value is [inf]. *)
Lemma one_sample_unbounded_witness :
  (1 <= 3)%Z /\
  exists fr w1,
    @solve_degree_n_build _ mt19937
        accepting_zero_dim 3 (PInt 1) loaded = (Ok fr, w1) /\
    lp_value (l_problem fr) PosInf.
Proof.
  split; [lia|].
  destruct (@one_sample_unbounded _ mt19937 accepting_zero_dim 3 loaded ltac:(lia))
    as (fr & w1 & Hb & _ & Hv & _).
  exists fr, w1. split; [exact Hb|exact Hv].
Defined.

(** Degree 1 on the first two points: the value 2 / (pt1 - pt0) is above 1. *)
Lemma sampled_value_above_1_witness :
  (1 <= 1)%Z /\ (1 <= 2)%Z /\ 1 < 2 / (pt1 - pt0).
Proof.
  split; [lia|]. split; [lia|].
  destruct (@sampled_value_above_1 _ mt19937
      accepting_zero_dim 1 2 loaded ltac:(lia) ltac:(lia))
    as (fr & w1 & Hb & _ & Hv).
  rewrite build_loaded_2 in Hb. injection Hb as <- _.
  apply Hv. cbn [sampled_locals l_problem].
  eapply lp_value_optimal; [exact optimal_2|reflexivity].
Defined.

(** Degree 1 on the first two points: the line through (pt0, -1) and
    (pt1, 1) is optimal. *)
Lemma degree_1_value_witness :
  (1 <= 2)%Z /\
  optimal (sampled_lp 2 [pt0; pt1]) (line_through pt0 pt1) /\
  lp_value (sampled_lp 2 [pt0; pt1]) (Finite (2 / (pt1 - pt0))).
Proof.
  split; [lia|].
  destruct (@degree_1_value _ mt19937
      accepting_zero_dim 2 loaded ltac:(lia)) as (fr & w1 & Hb & H).
  rewrite build_loaded_2 in Hb. injection Hb as <- _.
  cbn [sampled_locals l_problem l_x] in H.
  destruct (H pt0 pt1) as (Hopt & _ & Hval).
  - now left.
  - right. now left.
  - reflexivity.
  - repeat constructor; discriminate.
  - split; [exact Hopt|exact Hval].
Defined.

(** The polynomial 3 + 5 x on the points 0 and 1/2: at the first it is 3. *)
Lemma pol_calc_at_zero_witness :
  [0%Q; 1 # 2] <> [] /\ (0 < length [0%Q; 1 # 2])%nat /\ nth 0 [0%Q; 1 # 2] 0 == 0 /\
  exists pol_x,
    @pol_calc accepting_zero_dim (Var 2) [0%Q; 1 # 2] = Ok pol_x /\
    entry (eval [3; 5] pol_x) 0 == 3.
Proof.
  assert (Hx : [0%Q; 1 # 2] <> []) by discriminate.
  assert (Hj : (0 < length [0%Q; 1 # 2])%nat) by (cbn; lia).
  assert (Hz : nth 0 [0%Q; 1 # 2] 0 == 0) by reflexivity.
  split; [exact Hx|]. split; [exact Hj|]. split; [exact Hz|].
  exact (@pol_calc_at_zero accepting_zero_dim 1 [0%Q; 1 # 2] [3; 5] 0 Hx Hj Hz).
Defined.

(** The loop with a solver that always answers: sixteen objects, the first
    label, the last label, and the first solution. *)
Lemma demo_prints_each_degree_witness :
  (forall p, exists s, @lp_solve (answering optimum_2) p = Ok s) /\
  exists w',
    @demo _ mt19937 (answering optimum_2) accepting_zero_dim loaded = (Ok tt, w') /\
    length (stdout w') = 16%nat /\
    nth 0 (stdout w') PyNone = PyStr "For degree: 1:" /\
    nth 1 (stdout w') PyNone = PyArray (line_through pt0 pt1) /\
    nth 14 (stdout w') PyNone = PyStr "For degree: 8:".
Proof.
  assert (Htot : forall p, exists s, @lp_solve (answering optimum_2) p = Ok s)
    by (intros p; now exists optimum_2).
  split; [exact Htot|].
  destruct (@demo_prints_each_degree _ mt19937 (answering optimum_2)
      accepting_zero_dim loaded Htot)
    as (printed & w' & Hrun & Hout & _ & Hlen & Hnth).
  exists w'. split; [exact Hrun|].
  change (stdout loaded ++ printed) with printed in Hout. rewrite Hout.
  split; [exact Hlen|].
  destruct (Hnth 0%nat ltac:(lia)) as (Hlab0 & sol & Hsol & Hval0).
  destruct (Hnth 7%nat ltac:(lia)) as (Hlab7 & _).
  split; [exact Hlab0|]. split; [|exact Hlab7].
  cbn [lp_solve answering] in Hsol. injection Hsol as <-. exact Hval0.
Defined.


